(** * Bedrock managed prompts server: model adapter registry and
      invocation orchestrator

    A shallow embedding of [bedrock_prompts_mcp_server.py] and the
    properties of its classifier, response parsers, template renderer,
    variant selection, streaming loop, batch orchestrator and tool
    dispatcher.

    Python [str] values are modelled as [string] (a sequence of 8-bit code
    units); [str.lower] acts on the ASCII letters, which is what decides
    every comparison the program makes: all the markers it looks for are
    ASCII. *)

From Stdlib Require Import Bool Arith Lia List Ascii String ZArith.
From Stdlib Require Import Sorting.Sorted Sorting.Permutation.
Import ListNotations.

Local Open Scope string_scope.
Local Open Scope bool_scope.
Local Set Warnings "-register-all".

(* ================================================================= *)
(** ** Python strings *)

Module PyStr.

(** [c.lower()] for one code unit. *)
Definition lower_char (c : ascii) : ascii :=
  let n := nat_of_ascii c in
  if ((65 <=? n)%nat && (n <=? 90)%nat) then ascii_of_nat (n + 32) else c.

(** [s.lower()] *)
Fixpoint lower (s : string) : string :=
  match s with
  | EmptyString => EmptyString
  | String c s' => String (lower_char c) (lower s')
  end.

(** [s.startswith(p)] *)
Fixpoint startswith (p s : string) : bool :=
  match p with
  | EmptyString => true
  | String a p' =>
      match s with
      | EmptyString => false
      | String b s' => Ascii.eqb a b && startswith p' s'
      end
  end.

(** [needle in hay] for two strings. *)
Fixpoint contains (needle hay : string) : bool :=
  startswith needle hay ||
  match hay with
  | EmptyString => false
  | String _ hay' => contains needle hay'
  end.

(** [s[n:]] *)
Fixpoint drop (n : nat) (s : string) : string :=
  match n with
  | 0 => s
  | S n' => match s with
            | EmptyString => EmptyString
            | String _ s' => drop n' s'
            end
  end.

(** [s.replace(old, new)] for a non-empty [old]: the occurrences of [old]
    are found left to right and do not overlap; [skip] counts the code
    units of a matched occurrence still to be passed over. *)
Fixpoint replace_from (old new : string) (skip : nat) (s : string) : string :=
  match s with
  | EmptyString => EmptyString
  | String c s' =>
      match skip with
      | S k => replace_from old new k s'
      | 0 =>
          if startswith old s
          then new ++ replace_from old new (String.length old - 1) s'
          else String c (replace_from old new 0 s')
      end
  end.

(** [s.replace("", new)]: [new] goes before every code unit and at the
    end. *)
Fixpoint intersperse (new s : string) : string :=
  match s with
  | EmptyString => new
  | String c s' => new ++ String c (intersperse new s')
  end.

(** [s.replace(old, new)] *)
Definition replace (old new s : string) : string :=
  match old with
  | EmptyString => intersperse new s
  | String _ _ => replace_from old new 0 s
  end.

(** [old] occurs in [s] as a substring: the meaning of [old in s]. *)
Definition occurs (m s : string) : Prop :=
  exists pre post, s = pre ++ m ++ post.

(** [m] occurs in [s] up to the case of the letters of [s]. *)
Definition occurs_ci (m s : string) : Prop :=
  exists pre mid post, s = pre ++ mid ++ post /\ lower mid = m.

End PyStr.

(* ================================================================= *)
(** ** Model family classifier: [get_model_type] *)

Module Classifier.
Import PyStr.

(** [get_model_type(model_id)], branch for branch. *)
Definition get_model_type (model_id : string) : string :=
  let model_id_lower := lower model_id in
  if contains "claude" model_id_lower || contains "anthropic" model_id_lower
  then "claude"
  else if contains "titan" model_id_lower
  then "titan"
  else if contains "llama" model_id_lower || contains "meta" model_id_lower
  then "llama"
  else if contains "mistral" model_id_lower
  then "mistral"
  else if contains "cohere" model_id_lower
  then "cohere"
  else if contains "ai21" model_id_lower || contains "jurassic" model_id_lower
  then "ai21"
  else "unknown".

(** The closed set of families of the specification and the tag the
    program returns for each. *)
Inductive ModelFamily :=
  Claude | Titan | Llama | Mistral | Cohere | Ai21 | Unknown.

Definition tag (f : ModelFamily) : string :=
  match f with
  | Claude => "claude" | Titan => "titan" | Llama => "llama"
  | Mistral => "mistral" | Cohere => "cohere" | Ai21 => "ai21"
  | Unknown => "unknown"
  end.

(** The markers tested by the conditions of [get_model_type]. *)
Definition markers (f : ModelFamily) : list string :=
  match f with
  | Claude => ["claude"; "anthropic"]
  | Titan => ["titan"]
  | Llama => ["llama"; "meta"]
  | Mistral => ["mistral"]
  | Cohere => ["cohere"]
  | Ai21 => ["ai21"; "jurassic"]
  | Unknown => []
  end.

(** The fixed priority order. *)
Definition priority : list ModelFamily :=
  [Claude; Titan; Llama; Mistral; Cohere; Ai21].

(** The identifier contains a marker of family [f], whatever the case of
    its letters. *)
Definition has_marker (f : ModelFamily) (model_id : string) : Prop :=
  exists m, In m (markers f) /\ occurs_ci m model_id.

(** The classifier in the words of the specification: the first family
    of the priority order one of whose markers occurs in the lowered
    identifier, and unknown when there is none. *)
Definition has_markerb (f : ModelFamily) (model_id : string) : bool :=
  existsb (fun m => contains m (lower model_id)) (markers f).

Definition classify_spec (model_id : string) : ModelFamily :=
  match find (fun f => has_markerb f model_id) priority with
  | Some f => f
  | None => Unknown
  end.

End Classifier.

(* ================================================================= *)
(** ** Python values, exceptions and the operations the program uses *)

Module Py.
Import PyStr.

(** The JSON-shaped values the program handles: the responses of the
    services, the dictionaries it builds and returns.  Numbers are
    integers; floating point is outside this model. *)
Inductive json :=
| JNull
| JBool (b : bool)
| JInt (z : Z)
| JStr (s : string)
| JArr (l : list json)
| JObj (kv : list (string * json)).

Inductive exn_class :=
| IndexError | KeyError | AttributeError | TypeError | NameError
| ValueError | TimeoutError | ClientError | JSONDecodeError | OtherError.

(** An exception with the text [str(e)] gives. *)
Record exn := Exn { exn_cls : exn_class; exn_str : string }.

Inductive result (A : Type) :=
| Ok (a : A)
| Raise (e : exn).
Arguments Ok {A} a.
Arguments Raise {A} e.

Definition bind {A B : Type} (m : result A) (k : A -> result B) : result B :=
  match m with
  | Ok a => k a
  | Raise e => Raise e
  end.

Notation "x <- m ;; k" := (bind m (fun x => k))
  (at level 61, m at next level, right associativity).

(** [type(v).__name__] *)
Definition type_name (v : json) : string :=
  match v with
  | JNull => "NoneType"
  | JBool _ => "bool"
  | JInt _ => "int"
  | JStr _ => "str"
  | JArr _ => "list"
  | JObj _ => "dict"
  end.

Definition no_attribute (v : json) (attr : string) : exn :=
  Exn AttributeError
      ("'" ++ type_name v ++ "' object has no attribute '" ++ attr ++ "'").

(** [bool(v)] *)
Definition truthy (v : json) : bool :=
  match v with
  | JNull => false
  | JBool b => b
  | JInt z => negb (z =? 0)%Z
  | JStr s => negb (s =? "")
  | JArr l => match l with [] => false | _ => true end
  | JObj kv => match kv with [] => false | _ => true end
  end.

(** The binding of key [k] in a dictionary. *)
Fixpoint lookup (k : string) (kv : list (string * json)) : option json :=
  match kv with
  | [] => None
  | (k', v) :: kv' => if k =? k' then Some v else lookup k kv'
  end.

(** [d.get(k, default)] *)
Definition py_get (d : json) (k : string) (default : json) : result json :=
  match d with
  | JObj kv => Ok (match lookup k kv with Some v => v | None => default end)
  | _ => Raise (no_attribute d "get")
  end.

(** [d[k]] for a string key. *)
Definition py_getitem (d : json) (k : string) : result json :=
  match d with
  | JObj kv =>
      match lookup k kv with
      | Some v => Ok v
      | None => Raise (Exn KeyError ("'" ++ k ++ "'"))
      end
  | JArr _ => Raise (Exn TypeError "list indices must be integers or slices, not str")
  | JStr _ => Raise (Exn TypeError "string indices must be integers, not 'str'")
  | _ => Raise (Exn TypeError ("'" ++ type_name d ++ "' object is not subscriptable"))
  end.

(** [v[0]] *)
Definition py_index0 (v : json) : result json :=
  match v with
  | JArr [] => Raise (Exn IndexError "list index out of range")
  | JArr (x :: _) => Ok x
  | JStr EmptyString => Raise (Exn IndexError "string index out of range")
  | JStr (String c _) => Ok (JStr (String c EmptyString))
  | JObj _ => Raise (Exn KeyError "0")
  | _ => Raise (Exn TypeError ("'" ++ type_name v ++ "' object is not subscriptable"))
  end.

Fixpoint chars (s : string) : list json :=
  match s with
  | EmptyString => []
  | String c s' => JStr (String c EmptyString) :: chars s'
  end.

(** The elements [for x in v] goes through. *)
Definition py_iter (v : json) : result (list json) :=
  match v with
  | JArr l => Ok l
  | JStr s => Ok (chars s)
  | JObj kv => Ok (map (fun p => JStr (fst p)) kv)
  | _ => Raise (Exn TypeError ("'" ++ type_name v ++ "' object is not iterable"))
  end.

(** [a == b]; [True] and [False] compare equal to 1 and 0, dictionaries
    compare without regard to the order of their keys. *)
Fixpoint py_eq (a b : json) : bool :=
  match a, b with
  | JNull, JNull => true
  | JBool x, JBool y => Bool.eqb x y
  | JBool x, JInt z | JInt z, JBool x => (z =? (if x then 1 else 0))%Z
  | JInt x, JInt y => (x =? y)%Z
  | JStr x, JStr y => (x =? y)
  | JArr l, JArr m =>
      (fix go (l m : list json) : bool :=
         match l, m with
         | [], [] => true
         | x :: l', y :: m' => py_eq x y && go l' m'
         | _, _ => false
         end) l m
  | JObj kv, JObj kv' =>
      (List.length kv =? List.length kv')%nat &&
      forallb (fun p => match lookup (fst p) kv' with
                        | Some v' => py_eq (snd p) v'
                        | None => false
                        end) kv
  | _, _ => false
  end.

(** The receiver of a [str] method: anything else has no such
    attribute. *)
Definition as_str (v : json) (method : string) : result string :=
  match v with
  | JStr s => Ok s
  | _ => Raise (no_attribute v method)
  end.

(** The envelope every operation answers with on failure:
    [{"success": False, "error": message}]. *)
Definition failure (message : string) : json :=
  JObj [("success", JBool false); ("error", JStr message)].

End Py.

(* ================================================================= *)
(** ** Adapter table: the response parsers *)

Module Adapter.
Import PyStr Py Classifier.

(** [response_body.get("content", [{}])[0].get("text", "")] *)
Definition parse_response_claude (response_body : json) : result json :=
  content <- py_get response_body "content" (JArr [JObj []]) ;;
  first <- py_index0 content ;;
  py_get first "text" (JStr "").

Definition parse_response_titan (response_body : json) : result json :=
  results <- py_get response_body "results" (JArr [JObj []]) ;;
  if truthy results
  then first <- py_index0 results ;; py_get first "outputText" (JStr "")
  else Ok (JStr "").

Definition parse_response_llama (response_body : json) : result json :=
  py_get response_body "generation" (JStr "").

Definition parse_response_mistral (response_body : json) : result json :=
  outputs <- py_get response_body "outputs" (JArr [JObj []]) ;;
  if truthy outputs
  then first <- py_index0 outputs ;; py_get first "text" (JStr "")
  else Ok (JStr "").

Definition parse_response_cohere (response_body : json) : result json :=
  generations <- py_get response_body "generations" (JArr [JObj []]) ;;
  if truthy generations
  then first <- py_index0 generations ;; py_get first "text" (JStr "")
  else Ok (JStr "").

Definition parse_response_ai21 (response_body : json) : result json :=
  completions <- py_get response_body "completions" (JArr [JObj []]) ;;
  if truthy completions
  then first <- py_index0 completions ;;
       data <- py_get first "data" (JObj []) ;;
       py_get data "text" (JStr "")
  else Ok (JStr "").

(** The [parsers] table of [parse_model_response], in source order. *)
Definition parsers : list (string * (json -> result json)) :=
  [ ("claude", parse_response_claude);
    ("titan", parse_response_titan);
    ("llama", parse_response_llama);
    ("mistral", parse_response_mistral);
    ("cohere", parse_response_cohere);
    ("ai21", parse_response_ai21) ].

Fixpoint table_get {A : Type} (k : string) (t : list (string * A)) (default : A) : A :=
  match t with
  | [] => default
  | (k', a) :: t' => if k =? k' then a else table_get k t' default
  end.

(** [parse_model_response(model_id, response_body)]: the statements up
    to its [return].  In the source the statements that follow the
    [return], down to line 288, are indented as part of this body and
    are never reached. *)
Definition parse_model_response (model_id : string) (response_body : json)
  : result json :=
  let model_type := get_model_type model_id in
  let parser := table_get model_type parsers parse_response_claude in
  parser response_body.

(** The body in which the expected field of family [f] is absent, and
    the one in which it is present and empty. *)
Definition expected_field (f : ModelFamily) : string :=
  match f with
  | Claude | Unknown => "content"
  | Titan => "results"
  | Llama => "generation"
  | Mistral => "outputs"
  | Cohere => "generations"
  | Ai21 => "completions"
  end.

Definition empty_of (f : ModelFamily) : json :=
  match f with
  | Llama => JStr ""
  | _ => JArr []
  end.

Definition parser_of (f : ModelFamily) : json -> result json :=
  table_get (tag f) parsers parse_response_claude.

End Adapter.

(* ================================================================= *)
(** ** Template renderer: the substitution loop of [invoke_prompt] *)

Module Renderer.
Import PyStr.

(** The f-strings [f"{{{{{var_name}}}}}"] and [f"{{{var_name}}}"]. *)
Definition double_braces (var_name : string) : string :=
  "{{" ++ var_name ++ "}}".
Definition single_braces (var_name : string) : string :=
  "{" ++ var_name ++ "}".

(** One turn of the loop over [prompt_variables.items()]. *)
Definition substitute (filled_template : string) (item : string * string)
  : string :=
  let (var_name, var_value) := item in
  let filled_template := replace (double_braces var_name) var_value filled_template in
  replace (single_braces var_name) var_value filled_template.

(** The whole loop; a dictionary is its items in insertion order. *)
Definition render_items (template_text : string)
           (items : list (string * string)) : string :=
  fold_left substitute items template_text.

(** [filled_template] after the [if prompt_variables:] statement. *)
Definition render (template_text : string)
           (prompt_variables : option (list (string * string))) : string :=
  match prompt_variables with
  | None => template_text
  | Some items => render_items template_text items
  end.

(** No brace among the code units of a name. *)
Fixpoint brace_free (s : string) : bool :=
  match s with
  | EmptyString => true
  | String c s' =>
      negb (Ascii.eqb c "{") && negb (Ascii.eqb c "}") && brace_free s'
  end.

End Renderer.

(* ================================================================= *)
(** ** The invokers, the batch orchestrator and the tool dispatcher *)

Module Server.
Import PyStr Py Classifier Adapter Renderer.

(** One event of a response stream: [event.get('chunk')] is a chunk
    carrying [bytes], or is absent. *)
Inductive event :=
| ChunkEvent (bytes : string)
| OtherEvent.

(** What lies outside the program: the two service clients, and the
    library functions whose work is not modelled.  [build_request] is the
    table of request builders, whose [int()] and [float()] coercions are
    floating point; [invoke_model] is the runtime call followed by
    [json.loads(response["body"].read())]; the stream call gives
    [response.get('body')]; [json_loads] is
    [json.loads(chunk.get('bytes').decode())] and [py_str] is [str]. *)
Record World := {
  get_prompt : json -> result json;
  list_prompt_versions_call : json -> json -> result json;
  build_request : string -> json -> json -> json -> result json;
  invoke_model : string -> json -> result json;
  invoke_model_with_response_stream : string -> json -> result (option (list event));
  json_loads : string -> result json;
  py_str : json -> string
}.

Definition dquote : string := String (ascii_of_nat 34) EmptyString.

(** A [try] whose handlers all return the failure envelope of [str(e)]. *)
Definition guarded (body : result json) : json :=
  match body with
  | Ok r => r
  | Raise e => failure (exn_str e)
  end.

Definition get_prompt_details (w : World) (prompt_identifier prompt_version : json)
  : json :=
  guarded (
    let params := [("promptIdentifier", prompt_identifier)] in
    let params :=
      if truthy prompt_version
      then (params ++ [("promptVersion", prompt_version)])%list
      else params in
    response <- get_prompt w (JObj params) ;;
    Ok (JObj [("success", JBool true); ("prompt", response)])).

Definition list_prompt_versions (w : World) (prompt_identifier max_results : json)
  : json :=
  guarded (
    response <- list_prompt_versions_call w prompt_identifier max_results ;;
    versions <- py_get response "promptSummaries" (JArr []) ;;
    next_token <- py_get response "nextToken" JNull ;;
    Ok (JObj [("success", JBool true); ("versions", versions);
              ("nextToken", next_token)])).

(** The [for v in variants: ... break] loop; [None] when it finds
    nothing. *)
Fixpoint find_default (default_variant_name : json) (variants : list json)
  : result json :=
  match variants with
  | [] => Ok JNull
  | v :: rest =>
      name <- py_get v "name" JNull ;;
      if py_eq name default_variant_name then Ok v
      else find_default default_variant_name rest
  end.

(** Lines 335 to 345, and again 452 to 462: the variant the two invokers
    go on with. *)
Definition select_variant (prompt_data : json) : result json :=
  default_variant_name <- py_get prompt_data "defaultVariant" (JStr "variantOne") ;;
  variants <- py_get prompt_data "variants" (JArr []) ;;
  elements <- py_iter variants ;;
  variant <- find_default default_variant_name elements ;;
  if negb (truthy variant) && truthy variants
  then py_index0 variants
  else Ok variant.

(** How the error of [str.replace] names a wrong argument: its type,
    and [None] for the value [None]. *)
Definition argument_name (v : json) : string :=
  match v with
  | JNull => "None"
  | _ => type_name v
  end.

(** The second argument of [str.replace]. *)
Definition replace_arg (v : json) : result string :=
  match v with
  | JStr s => Ok s
  | _ => Raise (Exn TypeError
                    ("replace() argument 2 must be str, not " ++ argument_name v))
  end.

Fixpoint fill_loop (filled_template : json) (items : list (string * json))
  : result json :=
  match items with
  | [] => Ok filled_template
  | (var_name, var_value) :: rest =>
      t <- as_str filled_template "replace" ;;
      value <- replace_arg var_value ;;
      fill_loop (JStr (substitute t (var_name, value))) rest
  end.

(** [prompt_variables.items()] *)
Definition py_items (d : json) : result (list (string * json)) :=
  match d with
  | JObj kv => Ok kv
  | _ => Raise (no_attribute d "items")
  end.

(** Lines 358 to 363. *)
Definition fill (template_text prompt_variables : json) : result json :=
  if truthy prompt_variables
  then items <- py_items prompt_variables ;; fill_loop template_text items
  else Ok template_text.

Definition build_request_body (w : World)
           (model_id filled_template inference_config additional_fields : json)
  : result json :=
  m <- as_str model_id "lower" ;;
  build_request w (get_model_type m) filled_template inference_config
                additional_fields.

(** Either the function returns [envelope] at once or it goes on. *)
Inductive step (A : Type) :=
| Return (envelope : json)
| Continue (a : A).
Arguments Return {A} envelope.
Arguments Continue {A} a.

Record resolved := {
  r_model_id : json;
  r_filled_template : json;
  r_request_body : json
}.

(** The statements the two invokers share, from the catalog lookup to
    the request body (lines 328 to 376 and 447 to 491). *)
Definition resolve (w : World) (prompt_identifier prompt_variables prompt_version : json)
  : result (step resolved) :=
  let prompt_details_response :=
    get_prompt_details w prompt_identifier prompt_version in
  ok <- py_getitem prompt_details_response "success" ;;
  if negb (truthy ok) then Ok (Return prompt_details_response) else
  prompt_data <- py_getitem prompt_details_response "prompt" ;;
  variant <- select_variant prompt_data ;;
  if negb (truthy variant)
  then Ok (Return (failure "No variant found in prompt")) else
  template_config <- py_get variant "templateConfiguration" (JObj []) ;;
  text_config <- py_get template_config "text" (JObj []) ;;
  template_text <- py_get text_config "text" (JStr "") ;;
  if negb (truthy template_text)
  then Ok (Return (failure "No template text found in prompt")) else
  filled_template <- fill template_text prompt_variables ;;
  model_id <- py_get variant "modelId" (JStr "") ;;
  inference <- py_get variant "inferenceConfiguration" (JObj []) ;;
  inference_config <- py_get inference "text" (JObj []) ;;
  additional_fields <- py_get variant "additionalModelRequestFields" (JObj []) ;;
  request_body <- build_request_body w model_id filled_template
                                     inference_config additional_fields ;;
  Ok (Continue {| r_model_id := model_id;
                  r_filled_template := filled_template;
                  r_request_body := request_body |}).

Definition invoke_prompt (w : World)
           (prompt_identifier prompt_variables prompt_version : json)
           (stream : bool) : json :=
  guarded (
    r <- resolve w prompt_identifier prompt_variables prompt_version ;;
    match r with
    | Return envelope => Ok envelope
    | Continue x =>
        if stream
        then Ok (failure "Streaming requires use of invoke_prompt_stream tool")
        else
          m <- as_str (r_model_id x) "lower" ;;
          response_body <- invoke_model w m (r_request_body x) ;;
          completion_text <- parse_model_response m response_body ;;
          Ok (JObj [("success", JBool true);
                    ("completion", completion_text);
                    ("model_id", r_model_id x);
                    ("model_type", JStr (get_model_type m));
                    ("prompt_id", prompt_identifier);
                    ("filled_template", r_filled_template x);
                    ("metadata", JObj [("response_body", response_body)])])
    end).

(** [full_text += text; chunks.append(text)] *)
Definition accumulate (acc : string * list string) (text : json)
  : result (string * list string) :=
  match text with
  | JStr t => Ok (fst acc ++ t, (snd acc ++ [t])%list)
  | _ => Raise (Exn TypeError
                    ("can only concatenate str (not " ++ dquote ++ type_name text
                     ++ dquote ++ ") to str"))
  end.

(** The body of [for event in stream], lines 506 to 531. *)
Definition on_event (w : World) (model_type : string)
           (acc : string * list string) (ev : event)
  : result (string * list string) :=
  match ev with
  | OtherEvent => Ok acc
  | ChunkEvent bytes =>
      chunk_obj <- json_loads w bytes ;;
      if model_type =? "claude" then
        type <- py_get chunk_obj "type" JNull ;;
        if py_eq type (JStr "content_block_delta") then
          delta <- py_get chunk_obj "delta" (JObj []) ;;
          text <- py_get delta "text" (JStr "") ;;
          if truthy text then accumulate acc text else Ok acc
        else Ok acc
      else if model_type =? "titan" then
        text <- py_get chunk_obj "outputText" (JStr "") ;;
        if truthy text then accumulate acc text else Ok acc
      else
        accumulate acc (JStr (py_str w chunk_obj))
  end.

Fixpoint collect_stream (w : World) (model_type : string)
         (acc : string * list string) (events : list event)
  : result (string * list string) :=
  match events with
  | [] => Ok acc
  | ev :: rest =>
      acc' <- on_event w model_type acc ev ;;
      collect_stream w model_type acc' rest
  end.

Definition invoke_prompt_stream (w : World)
           (prompt_identifier prompt_variables prompt_version : json) : json :=
  guarded (
    r <- resolve w prompt_identifier prompt_variables prompt_version ;;
    match r with
    | Return envelope => Ok envelope
    | Continue x =>
        m <- as_str (r_model_id x) "lower" ;;
        stream <- invoke_model_with_response_stream w m (r_request_body x) ;;
        acc <- match stream with
               | Some events => collect_stream w (get_model_type m) ("", []) events
               | None => Ok ("", [])
               end ;;
        Ok (JObj [("success", JBool true);
                  ("completion", JStr (fst acc));
                  ("chunks", JArr (map JStr (snd acc)));
                  ("chunk_count", JInt (Z.of_nat (List.length (snd acc))));
                  ("model_id", r_model_id x);
                  ("model_type", JStr (get_model_type m));
                  ("prompt_id", prompt_identifier)])
    end).

(** [invoke_single(variables, index)], the wrapper each worker runs. *)
Definition invoke_single (w : World) (prompt_identifier prompt_version : json)
           (variables : json) (index : Z) : json :=
  match
    (let result := invoke_prompt w prompt_identifier variables prompt_version false in
     ok <- py_get result "success" (JBool false) ;;
     Ok (JObj [("index", JInt index); ("variables", variables);
               ("result", result); ("success", ok)]))
  with
  | Ok entry => entry
  | Raise e =>
      JObj [("index", JInt index); ("variables", variables);
            ("success", JBool false); ("error", JStr (exn_str e))]
  end.

(** [ThreadPoolExecutor(max_workers=max_workers)]: the constructor
    refuses a size that is not positive. *)
Definition thread_pool (max_workers : json) : result unit :=
  match max_workers with
  | JNull => Ok tt
  | JInt z =>
      if (z <=? 0)%Z
      then Raise (Exn ValueError "max_workers must be greater than 0")
      else Ok tt
  | JBool b =>
      if b then Ok tt
      else Raise (Exn ValueError "max_workers must be greater than 0")
  | _ => Raise (Exn TypeError
                    ("'<=' not supported between instances of '"
                     ++ type_name max_workers ++ "' and 'int'"))
  end.

(** [enumerate(l)], counting from [i]. *)
Fixpoint enumerate_from {A : Type} (i : nat) (l : list A) : list (nat * A) :=
  match l with
  | [] => []
  | x :: l' => (i, x) :: enumerate_from (S i) l'
  end.

(** What [future.result(timeout=120)] gives for the task submitted with
    index [i]: the entry its worker returned, or [TimeoutError] when the
    worker has not finished in time.  [env i] is the world as the worker
    of task [i] meets it. *)
Definition future_result (env : nat -> World) (timed_out : nat -> bool)
           (prompt_identifier prompt_version : json) (task : nat * json)
  : result json :=
  let (i, var_set) := task in
  if timed_out i
  then Raise (Exn TimeoutError "")
  else Ok (invoke_single (env i) prompt_identifier prompt_version var_set
                         (Z.of_nat i)).

(** One turn of [for future in futures], lines 596 to 607. *)
Definition settle (acc : list json * list json) (future : result json)
  : list json * list json :=
  let (results, errors) := acc in
  match (result <- future ;;
         ok <- py_getitem result "success" ;;
         Ok (result, truthy ok)) with
  | Ok (result, true) => ((results ++ [result])%list, errors)
  | Ok (result, false) => (results, (errors ++ [result])%list)
  | Raise e =>
      (results,
       (errors ++ [JObj [("success", JBool false);
                         ("error", JStr ("Future execution error: " ++ exn_str e))]])%list)
  end.

(** The two lists once every future has been waited for, in submission
    order. *)
Definition gather (env : nat -> World) (timed_out : nat -> bool)
           (prompt_identifier prompt_version : json) (tasks : list (nat * json))
  : list json * list json :=
  fold_left settle
            (map (future_result env timed_out prompt_identifier prompt_version) tasks)
            ([], []).

Definition batch_invoke_prompt (env : nat -> World) (timed_out : nat -> bool)
           (prompt_identifier variable_sets prompt_version max_workers : json)
  : json :=
  guarded (
    _ <- thread_pool max_workers ;;
    sets <- py_iter variable_sets ;;
    let (results, errors) :=
      gather env timed_out prompt_identifier prompt_version (enumerate_from 0 sets) in
    Ok (JObj [("success", JBool true);
              ("total_invocations", JInt (Z.of_nat (List.length sets)));
              ("successful", JInt (Z.of_nat (List.length results)));
              ("failed", JInt (Z.of_nat (List.length errors)));
              ("results", JArr results);
              ("errors", JArr errors);
              ("prompt_id", prompt_identifier)])).

(** [call_tool(name, arguments)]: the dictionary it serialises.  The
    module binds no name [list_prompts]: no [def] line introduces the
    statements of lines 270 to 288, so evaluating the name in the first
    branch raises [NameError]. *)
Definition call_tool (w : World) (env : nat -> World) (timed_out : nat -> bool)
           (name : string) (arguments : json) : json :=
  guarded (
    if name =? "list_bedrock_prompts" then
      max_results <- py_get arguments "max_results" (JInt 20) ;;
      next_token <- py_get arguments "next_token" JNull ;;
      Raise (Exn NameError "name 'list_prompts' is not defined")
    else if name =? "get_bedrock_prompt_details" then
      prompt_identifier <- py_getitem arguments "prompt_identifier" ;;
      prompt_version <- py_get arguments "prompt_version" JNull ;;
      Ok (get_prompt_details w prompt_identifier prompt_version)
    else if name =? "invoke_bedrock_prompt" then
      prompt_identifier <- py_getitem arguments "prompt_identifier" ;;
      prompt_variables <- py_get arguments "prompt_variables" JNull ;;
      prompt_version <- py_get arguments "prompt_version" JNull ;;
      Ok (invoke_prompt w prompt_identifier prompt_variables prompt_version false)
    else if name =? "invoke_bedrock_prompt_stream" then
      prompt_identifier <- py_getitem arguments "prompt_identifier" ;;
      prompt_variables <- py_get arguments "prompt_variables" JNull ;;
      prompt_version <- py_get arguments "prompt_version" JNull ;;
      Ok (invoke_prompt_stream w prompt_identifier prompt_variables prompt_version)
    else if name =? "batch_invoke_bedrock_prompt" then
      prompt_identifier <- py_getitem arguments "prompt_identifier" ;;
      variable_sets <- py_getitem arguments "variable_sets" ;;
      prompt_version <- py_get arguments "prompt_version" JNull ;;
      max_workers <- py_get arguments "max_workers" (JInt 5) ;;
      Ok (batch_invoke_prompt env timed_out prompt_identifier variable_sets
                              prompt_version max_workers)
    else if name =? "list_bedrock_prompt_versions" then
      prompt_identifier <- py_getitem arguments "prompt_identifier" ;;
      max_results <- py_get arguments "max_results" (JInt 20) ;;
      Ok (list_prompt_versions w prompt_identifier max_results)
    else
      Ok (failure ("Unknown tool: " ++ name))).

(** The index an entry of a report carries, if it carries one. *)
Definition entry_index (entry : json) : option Z :=
  match entry with
  | JObj kv => match lookup "index" kv with
               | Some (JInt i) => Some i
               | _ => None
               end
  | _ => None
  end.

Fixpoint indices (entries : list json) : list Z :=
  match entries with
  | [] => []
  | e :: rest =>
      match entry_index e with
      | Some i => i :: indices rest
      | None => indices rest
      end
  end.

(** The list a report holds under [key]. *)
Definition report_list (key : string) (report : json) : list json :=
  match report with
  | JObj kv => match lookup key kv with
               | Some (JArr l) => l
               | _ => []
               end
  | _ => []
  end.

End Server.

(* ================================================================= *)
(** * Properties *)

Import PyStr Py Classifier Adapter Renderer Server.

(** ** Strings *)

Lemma append_nil_r (s : string) : s ++ "" = s.
Proof. induction s as [|c s IH]; simpl; [reflexivity | now rewrite IH]. Qed.

Lemma append_assoc (a b c : string) : (a ++ b) ++ c = a ++ b ++ c.
Proof. induction a as [|x a IH]; simpl; [reflexivity | now rewrite IH]. Qed.

Lemma length_append (a b : string) :
  String.length (a ++ b) = String.length a + String.length b.
Proof. induction a as [|x a IH]; simpl; [reflexivity | now rewrite IH]. Qed.

Lemma lower_append (a b : string) : lower (a ++ b) = lower a ++ lower b.
Proof. induction a as [|x a IH]; simpl; [reflexivity | now rewrite IH]. Qed.

Lemma lower_split (s a b : string) :
  lower s = a ++ b ->
  exists a' b', s = a' ++ b' /\ lower a' = a /\ lower b' = b.
Proof.
  revert s; induction a as [|x a IH]; intros s H.
  - exists "", s. simpl. auto.
  - destruct s as [|c s]; simpl in H; [discriminate|].
    injection H as Hc Hs.
    destruct (IH _ Hs) as (a' & b' & -> & Ha & Hb).
    exists (String c a'), b'. simpl. rewrite Hc, Ha. auto.
Qed.

Lemma startswith_iff (p s : string) :
  startswith p s = true <-> exists r, s = p ++ r.
Proof.
  revert s; induction p as [|a p IH]; intros s; simpl.
  - split; [intros _; now exists s | reflexivity].
  - destruct s as [|b s].
    + split; [discriminate | intros [r Hr]; discriminate].
    + rewrite andb_true_iff, IH. split.
      * intros [Hab [r ->]]. apply Ascii.eqb_eq in Hab. subst. now exists r.
      * intros [r Hr]. injection Hr as -> ->. split.
        -- apply Ascii.eqb_refl.
        -- now exists r.
Qed.

Lemma contains_iff (m s : string) : contains m s = true <-> occurs m s.
Proof.
  unfold occurs. induction s as [|c s IH].
  - simpl. rewrite orb_false_r, startswith_iff. split.
    + intros [r Hr]. exists "", r. exact Hr.
    + intros (pre & post & H). destruct pre; simpl in H.
      * now exists post.
      * discriminate.
  - simpl. rewrite orb_true_iff, startswith_iff, IH. split.
    + intros [[r Hr] | (pre & post & ->)].
      * exists "", r. exact Hr.
      * exists (String c pre), post. reflexivity.
    + intros (pre & post & H). destruct pre as [|x pre]; simpl in H.
      * left. now exists post.
      * injection H as _ ->. right. now exists pre, post.
Qed.

Lemma contains_lower_iff (m s : string) :
  contains m (lower s) = true <-> occurs_ci m s.
Proof.
  rewrite contains_iff. unfold occurs, occurs_ci. split.
  - intros (pre & post & H).
    apply lower_split in H as (pre' & rest & -> & Hpre & H).
    apply lower_split in H as (mid & post' & -> & Hmid & Hpost).
    now exists pre', mid, post'.
  - intros (pre & mid & post & -> & <-).
    exists (lower pre), (lower post). now rewrite !lower_append.
Qed.


(** ** Classifier *)

Lemma has_markerb_iff (f : ModelFamily) (model_id : string) :
  has_markerb f model_id = true <-> has_marker f model_id.
Proof.
  unfold has_markerb, has_marker. rewrite existsb_exists.
  split; intros (m & Hin & H); exists m; split; auto;
    now apply contains_lower_iff.
Qed.

Lemma has_markerb_false (f : ModelFamily) (model_id : string) :
  ~ has_marker f model_id -> has_markerb f model_id = false.
Proof.
  intros H. destruct (has_markerb f model_id) eqn:E; [|reflexivity].
  now apply has_markerb_iff in E.
Qed.

Lemma get_model_type_refines (model_id : string) :
  get_model_type model_id = tag (classify_spec model_id).
Proof.
  unfold get_model_type, classify_spec, priority, has_markerb, markers.
  cbn [find existsb].
  repeat rewrite orb_false_r.
  repeat match goal with
         | |- context [if ?b then _ else _] => destruct b; try reflexivity
         end.
Qed.

Lemma tag_inj (f g : ModelFamily) : tag f = tag g -> f = g.
Proof. destruct f, g; simpl; intros H; try reflexivity; discriminate. Qed.


Lemma find_first {A : Type} (p : A -> bool) (before after : list A) (x : A) :
  p x = true ->
  (forall y, In y before -> p y = false) ->
  find p (before ++ x :: after)%list = Some x.
Proof.
  intros Hx. induction before as [|y before IH]; intros Hb; simpl.
  - now rewrite Hx.
  - rewrite (Hb y (or_introl eq_refl)). apply IH.
    intros z Hz. apply Hb. now right.
Qed.

Lemma find_none {A : Type} (p : A -> bool) (l : list A) :
  (forall y, In y l -> p y = false) -> find p l = None.
Proof.
  induction l as [|y l IH]; intros H; simpl; [reflexivity|].
  rewrite (H y (or_introl eq_refl)). apply IH. intros z Hz. apply H. now right.
Qed.

(** C6. The classifier is a total function giving one family tag for
    every identifier; an identifier containing "claude" or "anthropic",
    in any case of letters, is classified claude; an identifier
    containing a marker of some family is classified as the first such
    family of the priority order claude, titan, llama, mistral, cohere,
    ai21; an identifier containing no marker is classified unknown. *)
Theorem classifier_total_and_correct :
  (forall model_id, exists f, get_model_type model_id = tag f /\
                              forall g, get_model_type model_id = tag g -> g = f) /\
  (forall model_id,
      occurs_ci "claude" model_id \/ occurs_ci "anthropic" model_id ->
      get_model_type model_id = "claude") /\
  (forall model_id f before after,
      priority = (before ++ f :: after)%list ->
      has_marker f model_id ->
      (forall g, In g before -> ~ has_marker g model_id) ->
      get_model_type model_id = tag f) /\
  (forall model_id,
      (forall f, ~ has_marker f model_id) ->
      get_model_type model_id = "unknown").
Proof.
  assert (first : forall model_id f before after,
             priority = (before ++ f :: after)%list ->
             has_marker f model_id ->
             (forall g, In g before -> ~ has_marker g model_id) ->
             get_model_type model_id = tag f).
  { intros model_id f before after Hp Hf Hb.
    rewrite get_model_type_refines. unfold classify_spec. rewrite Hp.
    rewrite (find_first _ before after f); [reflexivity | |].
    - now apply has_markerb_iff.
    - intros g Hg. apply has_markerb_false. now apply Hb. }
  repeat split.
  - intros model_id. exists (classify_spec model_id). split.
    + apply get_model_type_refines.
    + intros g Hg. rewrite get_model_type_refines in Hg.
      symmetry. now apply tag_inj.
  - intros model_id H.
    apply (first model_id Claude [] [Titan; Llama; Mistral; Cohere; Ai21]).
    + reflexivity.
    + destruct H as [H | H]; [exists "claude" | exists "anthropic"];
        simpl; auto.
    + intros g [].
  - exact first.
  - intros model_id H. rewrite get_model_type_refines. unfold classify_spec.
    rewrite find_none; [reflexivity|].
    intros f _. apply has_markerb_false, H.
Qed.

Lemma classifier_total_and_correct_witness :
  get_model_type "amazon.Titan-Text-v1" = "titan".
Proof.
  destruct classifier_total_and_correct as (_ & _ & H & _).
  apply (H "amazon.Titan-Text-v1" Titan [Claude] [Llama; Mistral; Cohere; Ai21]).
  - reflexivity.
  - exists "titan". split; [simpl; auto|].
    exists "amazon.", "Titan", "-Text-v1". split; reflexivity.
  - intros g [<- | []] Hm. apply has_markerb_iff in Hm. discriminate Hm.
Defined.

(** ** Response parsers *)

(** Every parser but the claude one gives the empty string when the
    field it reads is absent or empty. *)
Lemma guarded_parsers_degrade (f : ModelFamily) (kv : list (string * json)) :
  f <> Claude -> f <> Unknown ->
  lookup (expected_field f) kv = None \/
  lookup (expected_field f) kv = Some (empty_of f) ->
  parser_of f (JObj kv) = Ok (JStr "").
Proof.
  intros Hc Hu [H | H]; destruct f; try congruence;
    cbv [parser_of tag parsers table_get String.eqb Ascii.eqb Bool.eqb];
    cbv [parse_response_titan parse_response_llama parse_response_mistral
         parse_response_cohere parse_response_ai21 py_get bind];
    simpl in H; rewrite H; reflexivity.
Qed.

Lemma claude_parser_absent (kv : list (string * json)) :
  lookup "content" kv = None ->
  parse_response_claude (JObj kv) = Ok (JStr "").
Proof.
  intros H. unfold parse_response_claude, py_get, bind. now rewrite H.
Qed.

(** C3. The claude parser does not return the empty string for a body
    whose "content" array is present and empty: indexing the empty list
    raises [IndexError], also through [parse_model_response], for a
    claude identifier and for one of no known family. *)
Theorem claude_parser_raises_on_empty_content :
  forall rest : list (string * json),
    let body := JObj (("content", JArr []) :: rest) in
    parse_response_claude body = Raise (Exn IndexError "list index out of range") /\
    parse_model_response "anthropic.claude-3-sonnet-20240229-v1:0" body
    = Raise (Exn IndexError "list index out of range") /\
    parse_model_response "some.other-model" body
    = Raise (Exn IndexError "list index out of range").
Proof.
  intros rest. repeat split.
Qed.

(** A body whose "content" is empty makes the whole invocation fail. *)
Definition empty_content_world (w : World) : World :=
  {| get_prompt := get_prompt w;
     list_prompt_versions_call := list_prompt_versions_call w;
     build_request := build_request w;
     invoke_model := fun _ _ => Ok (JObj [("content", JArr [])]);
     invoke_model_with_response_stream := invoke_model_with_response_stream w;
     json_loads := json_loads w;
     py_str := py_str w |}.

(** ** Variant selection *)

(** A variant as the catalog gives it: a dictionary with a string under
    "name". *)
Definition named (v : json) : Prop :=
  exists kv n, v = JObj kv /\ lookup "name" kv = Some (JStr n).


Definition has_nameb (d : string) (v : json) : bool :=
  match v with
  | JObj kv => match lookup "name" kv with
               | Some (JStr n) => n =? d
               | _ => false
               end
  | _ => false
  end.


Lemma named_truthy (v : json) : named v -> truthy v = true.
Proof.
  intros (kv & n & -> & H). destruct kv; [discriminate | reflexivity].
Qed.

Lemma find_default_named (d : string) (vs : list json) :
  Forall named vs ->
  find_default (JStr d) vs
  = Ok (match find (has_nameb d) vs with Some v => v | None => JNull end).
Proof.
  induction 1 as [|v vs (kv & n & -> & Hn) _ IH]; simpl; [reflexivity|].
  rewrite Hn. simpl. destruct (n =? d); [reflexivity | exact IH].
Qed.

Lemma find_some_split {A : Type} (p : A -> bool) (l : list A) (x : A) :
  find p l = Some x ->
  exists before after, l = (before ++ x :: after)%list /\ p x = true /\
                       forall y, In y before -> p y = false.
Proof.
  induction l as [|a l IH]; simpl; [discriminate|].
  destruct (p a) eqn:E.
  - intros [= <-]. exists [], l. repeat split; auto. intros y [].
  - intros H. destruct (IH H) as (before & after & -> & Hx & Hb).
    exists (a :: before), after. repeat split; auto.
    intros y [<- | Hy]; auto.
Qed.




(** ** [str.replace] *)

Lemma startswith_append (p a x : string) :
  startswith p a = true -> startswith p (a ++ x) = true.
Proof.
  rewrite !startswith_iff. intros [r ->]. exists (r ++ x).
  apply append_assoc.
Qed.

Lemma startswith_self (p r : string) : startswith p (p ++ r) = true.
Proof. apply startswith_iff. now exists r. Qed.

Lemma replace_from_skip (old new a r : string) :
  replace_from old new (String.length a) (a ++ r) = replace_from old new 0 r.
Proof. induction a as [|c a IH]; simpl; [reflexivity | exact IH]. Qed.

Lemma replace_empty (old new : string) : old <> "" -> replace old new "" = "".
Proof. destruct old; [congruence | reflexivity]. Qed.

Lemma replace_match (old new r : string) :
  old <> "" -> replace old new (old ++ r) = new ++ replace old new r.
Proof.
  destruct old as [|c old]; [congruence|]. intros _.
  unfold replace. change (String c old ++ r) with (String c (old ++ r)).
  cbn [replace_from].
  change (String c (old ++ r)) with (String c old ++ r).
  rewrite startswith_self. cbn [String.length].
  rewrite Nat.sub_succ, Nat.sub_0_r. now rewrite replace_from_skip.
Qed.

Lemma replace_nomatch (old new : string) (c : ascii) (s : string) :
  old <> "" ->
  startswith old (String c s) = false ->
  replace old new (String c s) = String c (replace old new s).
Proof.
  destruct old as [|x old]; [congruence|]. intros _ H.
  unfold replace. cbn [replace_from]. now rewrite H.
Qed.

Lemma replace_short (old new s : string) :
  String.length s < String.length old -> replace old new s = s.
Proof.
  intros H. assert (Hne : old <> "") by (destruct old; [simpl in H; lia | congruence]).
  induction s as [|c s IH]; [now apply replace_empty|].
  rewrite replace_nomatch; auto.
  - rewrite IH; [reflexivity | simpl in H; lia].
  - destruct (startswith old (String c s)) eqn:E; [|reflexivity].
    apply startswith_iff in E as [r E]. apply (f_equal String.length) in E.
    rewrite length_append in E. lia.
Qed.

Lemma replace_whole (old new : string) :
  old <> "" -> replace old new old = new.
Proof.
  intros H. rewrite <- (append_nil_r old) at 2.
  rewrite replace_match, replace_empty by assumption. apply append_nil_r.
Qed.

(** The replacement behaves as [str.replace] does on overlapping and on
    empty patterns, and the classifier as the program's conditions. *)
Example replace_leftmost : replace "aa" "b" "aaaaa" = "bba".
Proof. reflexivity. Qed.

Example replace_no_rescan : replace "{a}" "<{a}>" "x{a}y{a}" = "x<{a}>y<{a}>".
Proof. reflexivity. Qed.

Example replace_empty_pattern : replace "" "-" "abc" = "-a-b-c-".
Proof. reflexivity. Qed.

Example classify_meta_llama :
  get_model_type "meta.llama3-70b-instruct-v1:0" = "llama".
Proof. reflexivity. Qed.

Example classify_priority :
  get_model_type "Mistral-tuned-on-CLAUDE-data" = "claude".
Proof. reflexivity. Qed.

Example classify_unknown : get_model_type "amazon.nova-pro-v1:0" = "unknown".
Proof. reflexivity. Qed.

(** [p] and [m] are apart: wherever [m] stands in a text, no occurrence
    of [p] in that text touches it. *)
Definition apart (p m : string) : Prop :=
  p <> "" /\
  (forall a b, startswith p (a ++ m ++ b) = true -> startswith p a = true) /\
  (forall m1 m2 b, m = m1 ++ m2 -> m2 <> "" -> startswith p (m2 ++ b) = false).

Lemma replace_keeps_suffix (p v m b : string) :
  apart p m ->
  forall m2 m1, m = m1 ++ m2 -> replace p v (m2 ++ b) = m2 ++ replace p v b.
Proof.
  intros (Hne & _ & Hclean). induction m2 as [|c m2 IH]; intros m1 Hm.
  - reflexivity.
  - change (String c m2 ++ b) with (String c (m2 ++ b)).
    rewrite replace_nomatch; auto.
    + rewrite (IH (m1 ++ String c "")); [reflexivity|].
      rewrite append_assoc. exact Hm.
    + apply (Hclean m1 (String c m2) b Hm). discriminate.
Qed.

Lemma replace_around (p v m : string) :
  apart p m ->
  forall a b, replace p v (a ++ m ++ b) = replace p v a ++ m ++ replace p v b.
Proof.
  intros Hap a b.
  assert (H : forall n a, String.length a < n ->
              replace p v (a ++ m ++ b) = replace p v a ++ m ++ replace p v b).
  { clear a. destruct Hap as (Hne & Hsafe & Hclean).
    induction n as [|n IH]; intros a Hlen; [lia|].
    destruct a as [|c a].
    - rewrite replace_empty by assumption. simpl.
      apply (replace_keeps_suffix p v m b (conj Hne (conj Hsafe Hclean)) m "").
      reflexivity.
    - destruct (startswith p (String c a ++ m ++ b)) eqn:E.
      + pose proof (Hsafe _ _ E) as Ha.
        apply startswith_iff in Ha as [r Hr]. rewrite Hr.
        rewrite append_assoc, !replace_match, append_assoc by assumption.
        f_equal. apply IH.
        apply (f_equal String.length) in Hr. rewrite length_append in Hr.
        assert (String.length p <> 0) by (destruct p; [congruence | discriminate]).
        lia.
      + assert (Ea : startswith p (String c a) = false).
        { destruct (startswith p (String c a)) eqn:Ea; [|reflexivity].
          rewrite (startswith_append _ _ _ Ea) in E. discriminate. }
        change (String c a ++ m ++ b) with (String c (a ++ m ++ b)) in *.
        rewrite !replace_nomatch by assumption.
        simpl. f_equal. apply IH. simpl in Hlen. lia. }
  apply (H (S (String.length a))). lia.
Qed.

(** ** Placeholders of brace-free names *)

(** No opening brace among the code units of [s]. *)
Fixpoint no_open (s : string) : bool :=
  match s with
  | EmptyString => true
  | String c s' => negb (Ascii.eqb c "{") && no_open s'
  end.

Lemma brace_free_cons (c : ascii) (s : string) :
  brace_free (String c s) = true ->
  Ascii.eqb c "{" = false /\ Ascii.eqb c "}" = false /\ brace_free s = true.
Proof.
  simpl. rewrite !andb_true_iff, !negb_true_iff. tauto.
Qed.

Lemma no_open_append (a b : string) :
  no_open (a ++ b) = no_open a && no_open b.
Proof.
  induction a as [|c a IH]; simpl; [reflexivity|].
  now rewrite IH, andb_assoc.
Qed.

Lemma brace_free_no_open (s : string) : brace_free s = true -> no_open s = true.
Proof.
  induction s as [|c s IH]; [reflexivity|].
  intros H. apply brace_free_cons in H as (Ho & _ & Hs).
  simpl. now rewrite Ho, IH.
Qed.

Lemma startswith_names (n y : string) :
  brace_free n = true -> brace_free y = true -> n <> y ->
  forall t b, startswith (n ++ String "}" t) (y ++ String "}" b) = false.
Proof.
  revert y. induction n as [|x n IH]; intros [|c y] Hn Hy Hne t b.
  - congruence.
  - apply brace_free_cons in Hy as (_ & Hc & _).
    cbn [startswith append]. rewrite Ascii.eqb_sym, Hc. reflexivity.
  - apply brace_free_cons in Hn as (_ & Hc & _).
    cbn [startswith append]. now rewrite Hc.
  - apply brace_free_cons in Hn as (_ & _ & Hn).
    apply brace_free_cons in Hy as (_ & _ & Hy).
    cbn [startswith append]. destruct (Ascii.eqb_spec x c) as [->|]; [|reflexivity].
    cbn [andb]. apply IH; auto. congruence.
Qed.

Lemma startswith_close_open (n : string) :
  brace_free n = true ->
  forall t r, startswith (n ++ String "}" t) (String "{" r) = false.
Proof.
  intros Hn t r. destruct n as [|x n]; [reflexivity|].
  apply brace_free_cons in Hn as (Hx & _ & _).
  cbn [startswith append]. now rewrite Hx.
Qed.

Lemma startswith_open_close (y : string) :
  brace_free y = true ->
  forall t r, startswith (String "{" t) (y ++ String "}" r) = false.
Proof.
  intros Hy t r. destruct y as [|c y]; [reflexivity|].
  apply brace_free_cons in Hy as (Hc & _ & _).
  cbn [startswith append]. now rewrite Ascii.eqb_sym, Hc.
Qed.

Lemma startswith_before_open (n : string) :
  brace_free n = true ->
  forall t a rest,
    startswith (n ++ String "}" t) (a ++ String "{" rest) = true ->
    exists a', a = n ++ String "}" a' /\
               startswith t (a' ++ String "{" rest) = true.
Proof.
  induction n as [|x n IH]; intros Hn t [|c a] rest H.
  - discriminate.
  - cbn [startswith append] in H. apply andb_true_iff in H as [Hc H].
    apply Ascii.eqb_eq in Hc. subst c. now exists a.
  - apply brace_free_cons in Hn as (Hx & _ & _).
    cbn [startswith append] in H. rewrite Hx in H. discriminate.
  - apply brace_free_cons in Hn as (_ & _ & Hn).
    cbn [startswith append] in H. apply andb_true_iff in H as [Hc H].
    apply Ascii.eqb_eq in Hc. subst c.
    destruct (IH Hn _ _ _ H) as (a' & -> & H').
    now exists a'.
Qed.

Lemma startswith_open_inside (p' u r b : string) (c : ascii) :
  no_open (u ++ String c r) = true ->
  startswith (String "{" p') (String c r ++ b) = false.
Proof.
  rewrite no_open_append, andb_true_iff. intros [_ H].
  cbn [no_open] in H. apply andb_true_iff in H as [H _].
  apply negb_true_iff in H. cbn [startswith append]. now rewrite Ascii.eqb_sym, H.
Qed.

Lemma startswith_cons (a b : ascii) (p s : string) :
  startswith (String a p) (String b s) = Ascii.eqb a b && startswith p s.
Proof. reflexivity. Qed.

Ltac sw := cbn [append]; rewrite ?startswith_cons.
Ltac sw_in H := cbn [append] in H; rewrite ?startswith_cons in H.

Lemma apart_intro (p' m : string) :
  (forall a b, startswith (String "{" p') (a ++ m ++ b) = true ->
               startswith (String "{" p') a = true) ->
  (forall m1 c m2 b, m = m1 ++ String c m2 -> m1 <> "" ->
                     startswith (String "{" p') (String c m2 ++ b) = false) ->
  apart (String "{" p') m.
Proof.
  intros Hsafe Hin. split; [discriminate|]. split; [exact Hsafe|].
  intros m1 [|c m2] b Hm Hne; [congruence|].
  destruct m1 as [|c0 m1].
  - simpl in Hm. subst m.
    destruct (startswith (String "{" p') (String c m2 ++ b)) eqn:E; [|reflexivity].
    apply (Hsafe "" b) in E. discriminate E.
  - apply (Hin (String c0 m1)); [exact Hm | discriminate].
Qed.

Lemma inside_single (y m1 m2 p' b : string) (c : ascii) :
  brace_free y = true ->
  single_braces y = m1 ++ String c m2 -> m1 <> "" ->
  startswith (String "{" p') (String c m2 ++ b) = false.
Proof.
  intros Hy Hm Hne. destruct m1 as [|c0 m1]; [congruence|].
  unfold single_braces in Hm. cbn [append] in Hm. injection Hm as _ Hm.
  apply (startswith_open_inside _ m1). rewrite <- Hm.
  rewrite no_open_append, brace_free_no_open by assumption. reflexivity.
Qed.

Lemma inside_double (y m1 m2 p' b : string) (c : ascii) :
  brace_free y = true ->
  double_braces y = m1 ++ String c m2 -> m1 <> "" ->
  String c m2 = String "{" (y ++ "}}") \/
  startswith (String "{" p') (String c m2 ++ b) = false.
Proof.
  intros Hy Hm Hne. destruct m1 as [|c0 m1]; [congruence|].
  unfold double_braces in Hm. cbn [append] in Hm. injection Hm as _ Hm.
  destruct m1 as [|c1 m1].
  - left. cbn [append] in Hm. now rewrite <- Hm.
  - right. cbn [append] in Hm. injection Hm as _ Hm.
    apply (startswith_open_inside _ m1). rewrite <- Hm.
    rewrite no_open_append, brace_free_no_open by assumption. reflexivity.
Qed.

Section Apart.
Variables n y : string.
Hypothesis Hn : brace_free n = true.
Hypothesis Hy : brace_free y = true.
Hypothesis Hne : n <> y.

Lemma apart_single_single : apart (single_braces n) (single_braces y).
Proof.
  apply apart_intro.
  - intros [|c a] b H.
    + exfalso. unfold single_braces in H. sw_in H.
      rewrite Ascii.eqb_refl, append_assoc in H. cbn [andb append] in H.
      rewrite startswith_names in H by assumption. discriminate.
    + unfold single_braces in H. sw_in H; sw.
      apply andb_true_iff in H as [Hc H]. rewrite Hc. cbn [andb].
      apply startswith_before_open in H as (a' & -> & _); [|assumption].
      change (n ++ String "}" a') with (n ++ "}" ++ a').
      rewrite <- append_assoc. apply startswith_self.
  - intros m1 c m2 b Hm H1. now apply (inside_single y m1).
Qed.

Lemma apart_single_double : apart (single_braces n) (double_braces y).
Proof.
  apply apart_intro.
  - intros [|c a] b H.
    + exfalso. unfold double_braces in H. sw_in H.
      rewrite Ascii.eqb_refl in H. cbn [andb] in H.
      rewrite startswith_close_open in H by assumption. discriminate.
    + unfold double_braces in H. sw_in H; sw.
      apply andb_true_iff in H as [Hc H]. rewrite Hc. cbn [andb].
      apply startswith_before_open in H as (a' & -> & _); [|assumption].
      change (n ++ String "}" a') with (n ++ "}" ++ a').
      rewrite <- append_assoc. apply startswith_self.
  - intros m1 c m2 b Hm H1.
    destruct (inside_double y m1 m2 (n ++ "}") b c Hy Hm H1) as [E | E];
      [|exact E].
    rewrite E. sw.
    rewrite Ascii.eqb_refl, append_assoc. cbn [andb append].
    now apply startswith_names.
Qed.

Lemma apart_double_single : apart (double_braces n) (single_braces y).
Proof.
  apply apart_intro.
  - intros [|c [|c' a]] b H.
    + exfalso. unfold single_braces in H. sw_in H.
      rewrite Ascii.eqb_refl, append_assoc in H. cbn [andb append] in H.
      rewrite startswith_open_close in H by assumption. discriminate.
    + exfalso. unfold single_braces in H. sw_in H.
      rewrite Ascii.eqb_refl, append_assoc in H.
      apply andb_true_iff in H as [_ H]. cbn [andb append] in H.
      rewrite startswith_names in H by assumption. discriminate.
    + sw_in H; sw.
      apply andb_true_iff in H as [Hc H]. rewrite Hc.
      apply andb_true_iff in H as [Hc' H]. rewrite Hc'. cbn [andb].
      unfold single_braces in H. cbn [append] in H.
      apply startswith_before_open in H as (a' & -> & H); [|assumption].
      destruct a' as [|d a']; sw_in H.
      * rewrite andb_true_iff in H. destruct H as [H _].
        vm_compute in H. discriminate H.
      * apply andb_true_iff in H as [Hd _]. apply Ascii.eqb_eq in Hd. subst d.
        change (n ++ String "}" (String "}" a')) with (n ++ "}}" ++ a').
        rewrite <- append_assoc. apply startswith_self.
  - intros m1 c m2 b Hm H1. now apply (inside_single y m1).
Qed.

Lemma apart_double_double : apart (double_braces n) (double_braces y).
Proof.
  apply apart_intro.
  - intros [|c [|c' a]] b H.
    + exfalso. unfold double_braces in H. sw_in H.
      rewrite !Ascii.eqb_refl, append_assoc in H. cbn [andb append] in H.
      rewrite startswith_names in H by assumption. discriminate.
    + exfalso. unfold double_braces in H. sw_in H.
      rewrite Ascii.eqb_refl in H.
      apply andb_true_iff in H as [_ H]. cbn [andb] in H.
      rewrite startswith_close_open in H by assumption. discriminate.
    + sw_in H; sw.
      apply andb_true_iff in H as [Hc H]. rewrite Hc.
      apply andb_true_iff in H as [Hc' H]. rewrite Hc'. cbn [andb].
      unfold double_braces in H. cbn [append] in H.
      apply startswith_before_open in H as (a' & -> & H); [|assumption].
      destruct a' as [|d a']; sw_in H.
      * rewrite andb_true_iff in H. destruct H as [H _].
        vm_compute in H. discriminate H.
      * apply andb_true_iff in H as [Hd _]. apply Ascii.eqb_eq in Hd. subst d.
        change (n ++ String "}" (String "}" a')) with (n ++ "}}" ++ a').
        rewrite <- append_assoc. apply startswith_self.
  - intros m1 c m2 b Hm H1.
    destruct (inside_double y m1 m2 (String "{" (n ++ "}}")) b c Hy Hm H1)
      as [E | E]; [|exact E].
    rewrite E. sw.
    rewrite Ascii.eqb_refl. cbn [andb].
    rewrite append_assoc. cbn [append].
    now apply startswith_open_close.
Qed.
End Apart.

(** ** Renderer *)

(** The text [m] is a placeholder of the name [y], in either form. *)
Definition placeholder_of (y m : string) : Prop :=
  m = single_braces y \/ m = double_braces y.

(** A dictionary of strings, as the JSON value the invoker receives. *)
Definition str_values (items : list (string * string)) : json :=
  JObj (map (fun item => (fst item, JStr (snd item))) items).

Lemma substitute_around (n v y m a b : string) :
  placeholder_of y m ->
  brace_free y = true -> brace_free n = true -> n <> y ->
  substitute (a ++ m ++ b) (n, v)
  = substitute a (n, v) ++ m ++ substitute b (n, v).
Proof.
  intros [-> | ->] Hy Hn Hne; unfold substitute.
  - rewrite (replace_around _ _ _ (apart_double_single n y Hn Hy Hne)).
    now rewrite (replace_around _ _ _ (apart_single_single n y Hn Hy Hne)).
  - rewrite (replace_around _ _ _ (apart_double_double n y Hn Hy Hne)).
    now rewrite (replace_around _ _ _ (apart_single_double n y Hn Hy Hne)).
Qed.

Lemma render_items_around (y m : string) (items : list (string * string)) :
  placeholder_of y m ->
  brace_free y = true ->
  Forall (fun item => brace_free (fst item) = true /\ fst item <> y) items ->
  forall a b,
    render_items (a ++ m ++ b) items
    = render_items a items ++ m ++ render_items b items.
Proof.
  intros Hm Hy. unfold render_items.
  induction 1 as [|[n v] items [Hn Hne] _ IH]; intros a b; simpl.
  - reflexivity.
  - simpl in Hn, Hne.
    rewrite <- IH. f_equal. now apply (substitute_around n v y m).
Qed.

Lemma fill_loop_strings (items : list (string * string)) (t : string) :
  fill_loop (JStr t) (map (fun item => (fst item, JStr (snd item))) items)
  = Ok (JStr (render_items t items)).
Proof.
  revert t. induction items as [|[n v] items IH]; intros t.
  - reflexivity.
  - cbn [map fst snd fill_loop as_str replace_arg bind].
    rewrite IH. reflexivity.
Qed.

Lemma length_single_braces (n : string) :
  String.length (single_braces n) = String.length n + 2.
Proof.
  unfold single_braces. rewrite !length_append. simpl. lia.
Qed.

Lemma length_double_braces (n : string) :
  String.length (double_braces n) = String.length n + 4.
Proof.
  unfold double_braces. rewrite !length_append. simpl. lia.
Qed.

Lemma render_single (n v : string) :
  substitute (single_braces n) (n, v) = v.
Proof.
  unfold substitute. rewrite (replace_short (double_braces n)).
  - apply replace_whole. discriminate.
  - rewrite length_single_braces, length_double_braces. lia.
Qed.

Lemma render_double (n v : string) :
  substitute (double_braces n) (n, v) = replace (single_braces n) v v.
Proof.
  unfold substitute. rewrite (replace_whole (double_braces n)) by discriminate.
  reflexivity.
Qed.

(** C9 as stated does not hold: the placeholder of a name that is
    absent from the mapping is consumed when another name of the mapping
    has braces in it. *)
Lemma absent_placeholder_consumed :
  let items := [("a}{a", "Z")] in
  (forall v, ~ In ("a", v) items) /\
  occurs (single_braces "a") "{a}{a}" /\
  render "{a}{a}" (Some items) = "Z" /\
  ~ occurs (single_braces "a") (render "{a}{a}" (Some items)).
Proof.
  repeat split.
  - intros v [H | []]. discriminate H.
  - exists "", "{a}". reflexivity.
  - intros H. apply contains_iff in H. discriminate H.
Qed.

(** C9, amended. The reference rendering gives "Hi Ann, age 5"; for
    every template and every mapping whose names have no brace in them, a
    placeholder of a brace-free name absent from the mapping is left
    verbatim, the text before it and the text after it being rendered on
    their own; and for a string-valued mapping the substitution loop
    always returns the rendered text. *)
Theorem renderer_reference_behaviour :
  render "Hi {{name}}, age {age}" (Some [("name", "Ann"); ("age", "5")])
  = "Hi Ann, age 5" /\
  (forall items y m before after,
      placeholder_of y m ->
      brace_free y = true ->
      Forall (fun item => brace_free (fst item) = true /\ fst item <> y) items ->
      render (before ++ m ++ after) (Some items)
      = render before (Some items) ++ m ++ render after (Some items)) /\
  (forall template_text items,
      fill (JStr template_text) (str_values items)
      = Ok (JStr (render template_text (Some items)))).
Proof.
  repeat split.
  - intros items y m before after Hm Hy Hitems.
    now apply (render_items_around y m).
  - intros t items. unfold fill, str_values.
    destruct items as [|item items]; [reflexivity|].
    cbn [truthy map py_items bind]. apply (fill_loop_strings (item :: items)).
Qed.

Lemma renderer_reference_behaviour_witness :
  render "Dear {{title}} {name}, your {item} has shipped"
         (Some [("name", "Ann"); ("item", "book")])
  = "Dear {{title}} Ann, your book has shipped".
Proof.
  destruct renderer_reference_behaviour as (_ & H & _).
  assert (Hitems : Forall (fun item : string * string =>
                             brace_free (fst item) = true /\ fst item <> "title")
                          [("name", "Ann"); ("item", "book")]).
  { repeat constructor; simpl; discriminate. }
  exact (eq_trans
           (H _ "title" "{{title}}" "Dear " " {name}, your {item} has shipped"
              (or_intror eq_refl) eq_refl Hitems)
           eq_refl).
Defined.

(** C7 as stated does not hold: a value holding the placeholder of
    a later variable, or the single-brace placeholder of its own
    variable, does not reach the output verbatim. *)
Lemma substituted_text_is_rescanned :
  render "{a}" (Some [("a", "{b}"); ("b", "X")]) = "X" /\
  ~ occurs "{b}" (render "{a}" (Some [("a", "{b}"); ("b", "X")])) /\
  render "{{a}}" (Some [("a", "x{a}")]) = "xx{a}" /\
  render "{{a}}" (Some [("a", "x{a}")]) <> "x{a}".
Proof.
  repeat split.
  - intros H. apply contains_iff in H. discriminate H.
  - discriminate.
Qed.

(** C7, amended. Rendering is a chain of whole-text replacements in
    mapping order: the replacements of a variable apply to all of the
    text the earlier ones produced, values included.  Within one
    replacement the value put in is not scanned again, so a lone
    single-brace placeholder gives its value verbatim; the value put in
    for the double-brace form is scanned by the single-brace replacement
    of the same variable, and a value that is the placeholder of a later
    variable is replaced by that variable's value. *)
Theorem render_chain_of_replacements :
  (forall t items n v,
      render t (Some (items ++ [(n, v)])%list)
      = replace (single_braces n) v
                (replace (double_braces n) v (render t (Some items)))) /\
  (forall n v, render (single_braces n) (Some [(n, v)]) = v) /\
  (forall n v,
      render (double_braces n) (Some [(n, v)]) = replace (single_braces n) v v) /\
  (forall a b x,
      render (single_braces a) (Some [(a, single_braces b); (b, x)]) = x).
Proof.
  repeat split.
  - intros t items n v. unfold render, render_items.
    now rewrite fold_left_app.
  - intros n v. apply render_single.
  - intros n v. unfold render, render_items. cbn [fold_left].
    apply render_double.
  - intros a b x. unfold render, render_items. cbn [fold_left].
    now rewrite !render_single.
Qed.

(** ** Streaming invoker *)



(** A world for the examples: the catalog holds one prompt with a claude
    variant; a chunk decodes to a content delta carrying its own bytes as
    text, except the chunk "{bad", which [json.loads] rejects. *)
Definition example_prompt : json :=
  JObj [("name", JStr "survey");
        ("defaultVariant", JStr "variantOne");
        ("variants",
         JArr [JObj [("name", JStr "variantOne");
                     ("modelId", JStr "anthropic.claude-3-sonnet-20240229-v1:0");
                     ("templateConfiguration",
                      JObj [("text", JObj [("text", JStr "Answer: {{q}}")])])]])].

Definition example_events : list event :=
  [ChunkEvent "Hello"; ChunkEvent "{bad"; OtherEvent; ChunkEvent " world"].

Definition example_world : World :=
  {| get_prompt := fun _ => Ok example_prompt;
     list_prompt_versions_call := fun _ _ => Ok (JObj []);
     build_request := fun _ filled _ _ => Ok (JObj [("prompt", filled)]);
     invoke_model := fun _ _ =>
       Ok (JObj [("content", JArr [JObj [("type", JStr "text"); ("text", JStr "4")]])]);
     invoke_model_with_response_stream := fun _ _ => Ok (Some example_events);
     json_loads := fun bytes =>
       if bytes =? "{bad"
       then Raise (Exn JSONDecodeError
                       "Expecting property name enclosed in double quotes: line 1 column 2 (char 1)")
       else Ok (JObj [("type", JStr "content_block_delta");
                      ("delta", JObj [("type", JStr "text_delta"); ("text", JStr bytes)])]);
     py_str := fun _ => "" |}.




(** When every chunk decodes, the claude stream succeeds and its
    completion is the concatenation of its chunks. *)
Example well_formed_stream_accumulates :
  collect_stream example_world "claude" ("", [])
                 [ChunkEvent "Hello"; OtherEvent; ChunkEvent " world"]
  = Ok ("Hello world", ["Hello"; " world"]).
Proof. reflexivity. Qed.

(** ** Batch orchestrator *)

(** The entry a future contributes, and the list it goes to: [true] for
    [results], [false] for [errors]. *)
Definition settled (future : result json) : bool * json :=
  match (result <- future ;;
         ok <- py_getitem result "success" ;;
         Ok (result, truthy ok)) with
  | Ok (result, b) => (b, result)
  | Raise e =>
      (false, JObj [("success", JBool false);
                    ("error", JStr ("Future execution error: " ++ exn_str e))])
  end.

Definition kept (side : bool) (futures : list (result json)) : list json :=
  map snd (filter (fun s => Bool.eqb (fst s) side) (map settled futures)).

Lemma settle_settled (acc : list json * list json) (future : result json) :
  settle acc future
  = (if fst (settled future)
     then ((fst acc ++ [snd (settled future)])%list, snd acc)
     else (fst acc, (snd acc ++ [snd (settled future)])%list)).
Proof.
  destruct acc as [results errors]. unfold settle, settled.
  destruct (result <- future ;; ok <- py_getitem result "success" ;;
            Ok (result, truthy ok)) as [[r []]|e]; reflexivity.
Qed.

Lemma fold_settle (futures : list (result json)) (acc : list json * list json) :
  fold_left settle futures acc
  = ((fst acc ++ kept true futures)%list, (snd acc ++ kept false futures)%list).
Proof.
  revert acc. induction futures as [|f futures IH]; intros [results errors].
  - unfold kept. simpl. now rewrite !app_nil_r.
  - cbn [fold_left]. rewrite IH, settle_settled. unfold kept.
    cbn [map filter fst snd].
    destruct (fst (settled f)); cbn [fst snd Bool.eqb map];
      now rewrite <- app_assoc.
Qed.

Lemma gather_kept (env : nat -> World) (timed_out : nat -> bool)
      (pid version : json) (tasks : list (nat * json)) :
  gather env timed_out pid version tasks
  = (kept true (map (future_result env timed_out pid version) tasks),
     kept false (map (future_result env timed_out pid version) tasks)).
Proof. unfold gather. now rewrite fold_settle. Qed.

(** The entry of a task whose worker returned carries the task's index;
    the entry written for a timeout carries none. *)
Lemma settled_index (env : nat -> World) (timed_out : nat -> bool)
      (pid version var_set : json) (i : nat) :
  entry_index (snd (settled (future_result env timed_out pid version (i, var_set))))
  = if timed_out i then None else Some (Z.of_nat i).
Proof.
  unfold future_result, settled. destruct (timed_out i); [reflexivity|].
  unfold invoke_single.
  destruct (py_get (invoke_prompt (env i) pid var_set version false)
                   "success" (JBool false)) as [ok|e]; reflexivity.
Qed.

Lemma settled_side_timeout (env : nat -> World) (timed_out : nat -> bool)
      (pid version var_set : json) (i : nat) :
  timed_out i = true ->
  fst (settled (future_result env timed_out pid version (i, var_set))) = false.
Proof. intros H. unfold future_result, settled. now rewrite H. Qed.

Lemma batch_report (env : nat -> World) (timed_out : nat -> bool)
      (pid variable_sets version max_workers : json) (sets : list json) :
  thread_pool max_workers = Ok tt ->
  py_iter variable_sets = Ok sets ->
  let futures :=
    map (future_result env timed_out pid version) (enumerate_from 0 sets) in
  batch_invoke_prompt env timed_out pid variable_sets version max_workers
  = JObj [("success", JBool true);
          ("total_invocations", JInt (Z.of_nat (List.length sets)));
          ("successful", JInt (Z.of_nat (List.length (kept true futures))));
          ("failed", JInt (Z.of_nat (List.length (kept false futures))));
          ("results", JArr (kept true futures));
          ("errors", JArr (kept false futures));
          ("prompt_id", pid)].
Proof.
  intros Hp Hs. unfold batch_invoke_prompt. rewrite Hp, Hs. cbn [bind].
  rewrite gather_kept. reflexivity.
Qed.

Lemma batch_wholesale (env : nat -> World) (timed_out : nat -> bool)
      (pid variable_sets version max_workers : json) (e : exn) :
  thread_pool max_workers = Raise e \/
  (thread_pool max_workers = Ok tt /\ py_iter variable_sets = Raise e) ->
  batch_invoke_prompt env timed_out pid variable_sets version max_workers
  = failure (exn_str e).
Proof.
  unfold batch_invoke_prompt. intros [H | [Hp H]].
  - now rewrite H.
  - now rewrite Hp, H.
Qed.

Lemma length_enumerate_from {A : Type} (l : list A) (k : nat) :
  List.length (enumerate_from k l) = List.length l.
Proof.
  revert k. induction l as [|x l IH]; intros k; simpl; [reflexivity|].
  now rewrite IH.
Qed.

Lemma kept_length (futures : list (result json)) :
  List.length (kept true futures) + List.length (kept false futures)
  = List.length futures.
Proof.
  unfold kept. induction futures as [|f futures IH]; [reflexivity|].
  cbn [map filter]. destruct (fst (settled f)); cbn [Bool.eqb map List.length]; lia.
Qed.

(** The indices of either list come out in increasing order, all of them
    at least the index of the first task. *)
Lemma kept_indices_sorted (env : nat -> World) (timed_out : nat -> bool)
      (pid version : json) (side : bool) (sets : list json) (k : nat) :
  let l := indices (kept side (map (future_result env timed_out pid version)
                                   (enumerate_from k sets))) in
  StronglySorted Z.lt l /\ Forall (fun i => Z.of_nat k <= i)%Z l.
Proof.
  revert k. induction sets as [|var_set sets IH]; intros k.
  - split; constructor.
  - destruct (IH (S k)) as [Hs Hb]. unfold kept in *.
    cbn [enumerate_from map filter].
    set (s := settled (future_result env timed_out pid version (k, var_set))).
    pose proof (settled_index env timed_out pid version var_set k) as Hi.
    fold s in Hi.
    destruct (Bool.eqb (fst s) side); [|].
    + cbn [map indices]. rewrite Hi. destruct (timed_out k).
      * split; [exact Hs|]. eapply Forall_impl; [|exact Hb]. intros; simpl in *; lia.
      * split.
        -- constructor; [exact Hs|]. eapply Forall_impl; [|exact Hb].
           intros; simpl in *; lia.
        -- constructor; [lia|]. eapply Forall_impl; [|exact Hb].
           intros; simpl in *; lia.
    + split; [exact Hs|]. eapply Forall_impl; [|exact Hb]. intros; simpl in *; lia.
Qed.

Lemma kept_results_indexed (env : nat -> World) (timed_out : nat -> bool)
      (pid version : json) (sets : list json) (k : nat) :
  Forall (fun entry => entry_index entry <> None)
         (kept true (map (future_result env timed_out pid version)
                         (enumerate_from k sets))).
Proof.
  revert k. induction sets as [|var_set sets IH]; intros k.
  - constructor.
  - unfold kept in *. cbn [enumerate_from map filter].
    set (s := settled (future_result env timed_out pid version (k, var_set))).
    pose proof (settled_index env timed_out pid version var_set k) as Hi.
    pose proof (settled_side_timeout env timed_out pid version var_set k) as Ht.
    fold s in Hi, Ht.
    destruct (fst s) eqn:E; cbn [Bool.eqb map]; [|apply IH].
    constructor; [|apply IH].
    rewrite Hi. destruct (timed_out k); [|discriminate].
    specialize (Ht eq_refl). discriminate Ht.
Qed.

(** Without timeouts the indices of the two lists are, together, the
    indices of the submitted tasks, each once. *)
Lemma kept_indices_complete (env : nat -> World) (timed_out : nat -> bool)
      (pid version : json) (sets : list json) (k : nat) :
  (forall i, timed_out i = false) ->
  let futures := map (future_result env timed_out pid version)
                     (enumerate_from k sets) in
  Permutation (indices (kept true futures) ++ indices (kept false futures))
              (map Z.of_nat (seq k (List.length sets))).
Proof.
  intros Hno. revert k. induction sets as [|var_set sets IH]; intros k.
  - constructor.
  - specialize (IH (S k)). unfold kept in *. cbn [enumerate_from map filter].
    set (s := settled (future_result env timed_out pid version (k, var_set))).
    pose proof (settled_index env timed_out pid version var_set k) as Hi.
    fold s in Hi. rewrite Hno in Hi.
    cbn [List.length seq map].
    destruct (fst s); cbn [Bool.eqb map indices]; rewrite Hi.
    + cbn [app]. now constructor.
    + apply Permutation_sym, Permutation_cons_app, Permutation_sym, IH.
Qed.

Lemma in_enumerate_from {A : Type} (l : list A) (k i : nat) (x : A) :
  nth_error l i = Some x -> In (k + i, x) (enumerate_from k l).
Proof.
  revert k i. induction l as [|a l IH]; intros k [|i] H; simpl in H.
  - discriminate.
  - discriminate.
  - injection H as ->. left. f_equal. lia.
  - right. replace (k + S i) with (S k + i) by lia. now apply IH.
Qed.

Lemma in_kept (side : bool) (future : result json)
      (futures : list (result json)) :
  In future futures ->
  fst (settled future) = side ->
  In (snd (settled future)) (kept side futures).
Proof.
  intros Hin Hside. unfold kept. apply in_map. apply filter_In. split.
  - now apply in_map.
  - rewrite Hside. apply Bool.eqb_reflx.
Qed.

(** The index of an entry of either list is that of a task whose worker
    returned in time. *)
Lemma kept_index_returned (env : nat -> World) (timed_out : nat -> bool)
      (pid version : json) (side : bool) (sets : list json) (k : nat) (z : Z) :
  In z (indices (kept side (map (future_result env timed_out pid version)
                                (enumerate_from k sets)))) ->
  exists i, z = Z.of_nat i /\ timed_out i = false.
Proof.
  revert k. induction sets as [|var_set sets IH]; intros k; [intros []|].
  unfold kept in *. cbn [enumerate_from map filter].
  set (s := settled (future_result env timed_out pid version (k, var_set))).
  pose proof (settled_index env timed_out pid version var_set k) as Hi.
  fold s in Hi.
  destruct (Bool.eqb (fst s) side); [|apply IH].
  cbn [map indices]. rewrite Hi. destruct (timed_out k) eqn:Et; [apply IH|].
  intros [<- | H]; [now exists k | now apply (IH (S k))].
Qed.

(** What an invocation answers when the catalog lookup fails. *)
Lemma invoke_prompt_lookup_fails (w : World) (pid vars version : json)
      (stream : bool) (e : exn) :
  (forall params, get_prompt w params = Raise e) ->
  invoke_prompt w pid vars version stream = failure (exn_str e).
Proof.
  intros H. unfold invoke_prompt, resolve, get_prompt_details.
  rewrite H. reflexivity.
Qed.

Definition failing_catalog : World :=
  {| get_prompt := fun _ =>
       Raise (Exn ClientError
                  "An error occurred (ResourceNotFoundException) when calling the GetPrompt operation: Prompt not found");
     list_prompt_versions_call := list_prompt_versions_call example_world;
     build_request := build_request example_world;
     invoke_model := invoke_model example_world;
     invoke_model_with_response_stream :=
       invoke_model_with_response_stream example_world;
     json_loads := json_loads example_world;
     py_str := py_str example_world |}.

(** C1. A task that exceeds the per-task timeout is entered in the
    failures without its index, so the index of a submitted task that
    timed out appears in neither list of the report, although the report
    holds one entry for every submitted task. *)
Theorem timed_out_task_reported_without_index :
  forall env timed_out pid variable_sets sets version max_workers i,
    thread_pool max_workers = Ok tt ->
    py_iter variable_sets = Ok sets ->
    i < List.length sets ->
    timed_out i = true ->
    let report :=
      batch_invoke_prompt env timed_out pid variable_sets version max_workers in
    List.length (report_list "results" report)
    + List.length (report_list "errors" report) = List.length sets /\
    ~ In (Z.of_nat i) (indices (report_list "results" report) ++
                       indices (report_list "errors" report))%list.
Proof.
  intros env timed_out pid variable_sets sets version max_workers i Hp Hs Hi Ht.
  cbv zeta. rewrite (batch_report _ _ _ _ _ _ sets Hp Hs).
  cbn [report_list lookup String.eqb Ascii.eqb Bool.eqb]. split.
  - now rewrite kept_length, length_map, length_enumerate_from.
  - intros Hin. apply in_app_or in Hin.
    destruct Hin as [Hin | Hin];
      apply kept_index_returned in Hin as (j & Hj & Hout);
      apply Nat2Z.inj in Hj; subst j; congruence.
Qed.

Lemma timed_out_task_reported_without_index_witness :
  let report :=
    batch_invoke_prompt (fun _ => example_world) (fun i => Nat.eqb i 0)
                        (JStr "PROMPT1") (JArr [str_values [("q", "2+2?")]])
                        JNull (JInt 5) in
  report_list "errors" report
  = [JObj [("success", JBool false); ("error", JStr "Future execution error: ")]] /\
  ~ In 0%Z (indices (report_list "results" report) ++
            indices (report_list "errors" report))%list.
Proof.
  split; [reflexivity|].
  apply (timed_out_task_reported_without_index
           (fun _ => example_world) (fun i => Nat.eqb i 0)
           (JStr "PROMPT1") (JArr [str_values [("q", "2+2?")]])
           [str_values [("q", "2+2?")]] JNull (JInt 5) 0);
    [reflexivity | reflexivity | simpl; lia | reflexivity].
Defined.

(** The indices that the entries of either list carry come in strictly
    increasing order, and every success carries an index. *)
Theorem batch_report_ordered :
  forall env timed_out pid variable_sets version max_workers,
    let report :=
      batch_invoke_prompt env timed_out pid variable_sets version max_workers in
    StronglySorted Z.lt (indices (report_list "results" report)) /\
    StronglySorted Z.lt (indices (report_list "errors" report)) /\
    Forall (fun entry => entry_index entry <> None) (report_list "results" report).
Proof.
  intros env timed_out pid variable_sets version max_workers. cbv zeta.
  destruct (thread_pool max_workers) as [[]|e] eqn:Hp.
  - destruct (py_iter variable_sets) as [sets|e] eqn:Hs.
    + rewrite (batch_report _ _ _ _ _ _ sets Hp Hs).
      cbn [report_list lookup String.eqb Ascii.eqb Bool.eqb].
      repeat split.
      * apply (kept_indices_sorted env timed_out pid version true sets 0).
      * apply (kept_indices_sorted env timed_out pid version false sets 0).
      * apply kept_results_indexed.
    + rewrite (batch_wholesale _ _ _ _ _ _ e) by (right; auto).
      repeat split; constructor.
  - rewrite (batch_wholesale _ _ _ _ _ _ e) by (left; auto).
    repeat split; constructor.
Qed.

(** Four tasks: the catalog fails for the task of index 1 and the task
    of index 3 times out. *)
Example mixed_batch_report :
  let report :=
    batch_invoke_prompt
      (fun i => if Nat.eqb i 1 then failing_catalog else example_world)
      (fun i => Nat.eqb i 3)
      (JStr "PROMPT1")
      (JArr [str_values [("q", "a")]; str_values [("q", "b")];
             str_values [("q", "c")]; str_values [("q", "d")]])
      JNull (JInt 2) in
  indices (report_list "results" report) = [0; 2]%Z /\
  indices (report_list "errors" report) = [1]%Z /\
  List.length (report_list "errors" report) = 2.
Proof. repeat split. Qed.

(** C5 as stated does not hold, in either direction: when the catalog lookup
    fails the report is a success envelope with every task among the
    failures, and a pool size of zero gives the wholesale failure
    although the catalog holds the prompt. *)
Lemma catalog_failure_is_not_wholesale :
  batch_invoke_prompt (fun _ => failing_catalog) (fun _ => false)
                      (JStr "MISSING")
                      (JArr [str_values [("q", "a")]; str_values [("q", "b")]])
                      JNull (JInt 5)
  = (let message :=
       "An error occurred (ResourceNotFoundException) when calling the GetPrompt operation: Prompt not found" in
     JObj [("success", JBool true);
           ("total_invocations", JInt 2);
           ("successful", JInt 0);
           ("failed", JInt 2);
           ("results", JArr []);
           ("errors",
            JArr [JObj [("index", JInt 0); ("variables", str_values [("q", "a")]);
                        ("result", failure message); ("success", JBool false)];
                  JObj [("index", JInt 1); ("variables", str_values [("q", "b")]);
                        ("result", failure message); ("success", JBool false)]]);
           ("prompt_id", JStr "MISSING")]) /\
  batch_invoke_prompt (fun _ => example_world) (fun _ => false)
                      (JStr "PROMPT1") (JArr [str_values [("q", "a")]])
                      JNull (JInt 0)
  = failure "max_workers must be greater than 0".
Proof. split; reflexivity. Qed.

(** C5, amended. The orchestrator makes no catalog lookup of its own.
    It answers with the wholesale failure envelope if and only if the
    worker pool cannot be created or the variable sets cannot be
    enumerated, which for an integer size and a list of sets is when the
    size is not positive.  A catalog lookup that fails is met by each
    task on its own and entered among the failures with the task's index,
    inside a success report; and every task whose worker returns in time
    has an entry carrying its index in one of the two lists. *)
Theorem batch_wholesale_failure_condition :
  (forall env timed_out pid variable_sets version max_workers,
      (exists message,
          batch_invoke_prompt env timed_out pid variable_sets version max_workers
          = failure message)
      <-> ((exists e, thread_pool max_workers = Raise e) \/
           (exists e, py_iter variable_sets = Raise e))) /\
  (forall env timed_out pid sets version z,
      (exists message,
          batch_invoke_prompt env timed_out pid (JArr sets) version (JInt z)
          = failure message)
      <-> (z <= 0)%Z) /\
  (forall env timed_out pid sets version max_workers i var_set e,
      thread_pool max_workers = Ok tt ->
      nth_error sets i = Some var_set ->
      timed_out i = false ->
      (forall params, get_prompt (env i) params = Raise e) ->
      let report :=
        batch_invoke_prompt env timed_out pid (JArr sets) version max_workers in
      py_get report "success" JNull = Ok (JBool true) /\
      In (JObj [("index", JInt (Z.of_nat i)); ("variables", var_set);
                ("result", failure (exn_str e)); ("success", JBool false)])
         (report_list "errors" report)) /\
  (forall env timed_out pid sets version max_workers i var_set,
      thread_pool max_workers = Ok tt ->
      nth_error sets i = Some var_set ->
      timed_out i = false ->
      let report :=
        batch_invoke_prompt env timed_out pid (JArr sets) version max_workers in
      exists entry,
        entry_index entry = Some (Z.of_nat i) /\
        (In entry (report_list "results" report) \/
         In entry (report_list "errors" report))).
Proof.
  assert (general : forall env timed_out pid variable_sets version max_workers,
      (exists message,
          batch_invoke_prompt env timed_out pid variable_sets version max_workers
          = failure message)
      <-> ((exists e, thread_pool max_workers = Raise e) \/
           (exists e, py_iter variable_sets = Raise e))).
  { intros env timed_out pid variable_sets version max_workers.
    destruct (thread_pool max_workers) as [[]|e] eqn:Hp.
    - destruct (py_iter variable_sets) as [sets|e] eqn:Hs.
      + rewrite (batch_report _ _ _ _ _ _ sets Hp Hs). split.
        * intros [message H]. discriminate H.
        * intros [[e H] | [e H]]; discriminate H.
      + rewrite (batch_wholesale _ _ _ _ _ _ e) by (right; auto). split.
        * intros _. right. now exists e.
        * intros _. now exists (exn_str e).
    - rewrite (batch_wholesale _ _ _ _ _ _ e) by (left; auto). split.
      + intros _. left. now exists e.
      + intros _. now exists (exn_str e). }
  split; [exact general|]. split; [|split].
  - intros env timed_out pid sets version z. rewrite general.
    cbn [thread_pool py_iter]. destruct (Z.leb_spec z 0) as [Hz | Hz]; split.
    + intros _. exact Hz.
    + intros _. left. eexists. reflexivity.
    + intros [[e H] | [e H]]; discriminate H.
    + intros H. lia.
  - intros env timed_out pid sets version max_workers i var_set e Hp Hn Ht Hg.
    cbv zeta.
    rewrite (batch_report env timed_out pid (JArr sets) version max_workers sets
                          Hp eq_refl).
    cbn [py_get report_list lookup String.eqb Ascii.eqb Bool.eqb].
    split; [reflexivity|].
    pose proof (in_enumerate_from sets 0 i var_set Hn) as Hin. cbn [Nat.add] in Hin.
    apply (in_map (future_result env timed_out pid version)) in Hin.
    apply (in_kept false) in Hin.
    + revert Hin. unfold future_result, settled, invoke_single. rewrite Ht.
      rewrite (invoke_prompt_lookup_fails _ _ _ _ _ e Hg). exact (fun H => H).
    + unfold future_result, settled, invoke_single. rewrite Ht.
      rewrite (invoke_prompt_lookup_fails _ _ _ _ _ e Hg). reflexivity.
  - intros env timed_out pid sets version max_workers i var_set Hp Hn Ht.
    cbv zeta.
    rewrite (batch_report env timed_out pid (JArr sets) version max_workers sets
                          Hp eq_refl).
    cbn [report_list lookup String.eqb Ascii.eqb Bool.eqb].
    pose proof (in_enumerate_from sets 0 i var_set Hn) as Hin. cbn [Nat.add] in Hin.
    apply (in_map (future_result env timed_out pid version)) in Hin.
    exists (snd (settled (future_result env timed_out pid version (i, var_set)))).
    split.
    + rewrite settled_index, Ht. reflexivity.
    + destruct (fst (settled (future_result env timed_out pid version (i, var_set))))
        eqn:E; [left | right]; now apply in_kept.
Qed.

Lemma batch_wholesale_failure_condition_witness :
  let report :=
    batch_invoke_prompt (fun _ => failing_catalog) (fun _ => false)
                        (JStr "MISSING")
                        (JArr [str_values [("q", "a")]; str_values [("q", "b")]])
                        JNull (JInt 5) in
  py_get report "success" JNull = Ok (JBool true) /\
  In (JObj [("index", JInt 1); ("variables", str_values [("q", "b")]);
            ("result",
             failure "An error occurred (ResourceNotFoundException) when calling the GetPrompt operation: Prompt not found");
            ("success", JBool false)])
     (report_list "errors" report).
Proof.
  destruct batch_wholesale_failure_condition as (_ & _ & H & _).
  apply (H (fun _ => failing_catalog) (fun _ => false) (JStr "MISSING")
           [str_values [("q", "a")]; str_values [("q", "b")]] JNull (JInt 5) 1
           (str_values [("q", "b")])
           (Exn ClientError
                "An error occurred (ResourceNotFoundException) when calling the GetPrompt operation: Prompt not found"));
    reflexivity.
Defined.

(** ** Tool dispatcher *)

(** C2. The call of the tool "list_bedrock_prompts" never returns a
    success envelope, whatever the catalog would answer: the name
    [list_prompts] is not bound, the [NameError] is caught at the
    boundary of [call_tool] and its text is returned in a failure
    envelope.  No exception passes the boundary. *)
Theorem list_prompts_tool_always_fails :
  (forall w env timed_out kv,
      call_tool w env timed_out "list_bedrock_prompts" (JObj kv)
      = failure "name 'list_prompts' is not defined") /\
  (forall w env timed_out arguments,
      exists message,
        call_tool w env timed_out "list_bedrock_prompts" arguments
        = failure message).
Proof.
  split.
  - intros w env timed_out kv. reflexivity.
  - intros w env timed_out arguments. unfold call_tool.
    cbn [String.eqb Ascii.eqb Bool.eqb].
    destruct arguments; eexists; reflexivity.
Qed.

(** ** Whole invocations *)

Example invoke_prompt_end_to_end :
  invoke_prompt example_world (JStr "PROMPT1") (str_values [("q", "2+2?")])
                JNull false
  = JObj [("success", JBool true);
          ("completion", JStr "4");
          ("model_id", JStr "anthropic.claude-3-sonnet-20240229-v1:0");
          ("model_type", JStr "claude");
          ("prompt_id", JStr "PROMPT1");
          ("filled_template", JStr "Answer: 2+2?");
          ("metadata",
           JObj [("response_body",
                  JObj [("content",
                         JArr [JObj [("type", JStr "text"); ("text", JStr "4")]])])])].
Proof. reflexivity. Qed.

Example empty_content_fails_invocation :
  invoke_prompt (empty_content_world example_world) (JStr "PROMPT1")
                (str_values [("q", "2+2?")]) JNull false
  = failure "list index out of range".
Proof. reflexivity. Qed.

Example streaming_flag_is_rejected :
  invoke_prompt example_world (JStr "PROMPT1") JNull JNull true
  = failure "Streaming requires use of invoke_prompt_stream tool".
Proof. reflexivity. Qed.

(* ================================================================= *)
(** * Further properties of the code *)

(** ** Renderer: templates and their placeholders *)

Lemma replace_absent (old new s : string) :
  old <> "" -> contains old s = false -> replace old new s = s.
Proof.
  intros Hne. induction s as [|c s IH]; intros H.
  - now apply replace_empty.
  - cbn [contains] in H. apply orb_false_iff in H as [Hs Hc].
    rewrite replace_nomatch by assumption. now rewrite IH.
Qed.

Lemma replace_scan (p' v a s : string) :
  no_open a = true ->
  replace (String "{" p') v (a ++ s) = a ++ replace (String "{" p') v s.
Proof.
  induction a as [|c a IH]; intros Ha; [reflexivity|].
  cbn [no_open] in Ha. apply andb_true_iff in Ha as [Hc Ha].
  apply negb_true_iff in Hc.
  cbn [append]. rewrite replace_nomatch.
  - now rewrite IH.
  - discriminate.
  - rewrite startswith_cons, Ascii.eqb_sym, Hc. reflexivity.
Qed.

Lemma replace_no_open (p' v a : string) :
  no_open a = true -> replace (String "{" p') v a = a.
Proof.
  intros Ha. rewrite <- (append_nil_r a) at 1.
  rewrite replace_scan by assumption.
  rewrite replace_empty by discriminate. apply append_nil_r.
Qed.

Lemma occurs_double_single (n t : string) :
  occurs (double_braces n) t -> occurs (single_braces n) t.
Proof.
  intros (pre & post & ->). exists (pre ++ "{"), ("}" ++ post).
  unfold double_braces, single_braces. now rewrite !append_assoc.
Qed.

Lemma contains_single_double (n t : string) :
  contains (single_braces n) t = false -> contains (double_braces n) t = false.
Proof.
  intros H. destruct (contains (double_braces n) t) eqn:E; [|reflexivity].
  apply contains_iff, occurs_double_single, contains_iff in E. congruence.
Qed.

Lemma no_open_contains (p' t : string) :
  no_open t = true -> contains (String "{" p') t = false.
Proof.
  induction t as [|c t IH]; intros H; [reflexivity|].
  cbn [no_open] in H. apply andb_true_iff in H as [Hc Ht].
  apply negb_true_iff in Hc.
  cbn [contains]. rewrite startswith_cons, Ascii.eqb_sym, Hc, IH by assumption.
  reflexivity.
Qed.

(** X1. A template in which no placeholder of a name of the mapping
    occurs is returned unchanged; so is every template without an opening
    brace, whatever the mapping. *)
Theorem render_without_placeholders :
  (forall t items,
      Forall (fun item => contains (single_braces (fst item)) t = false) items ->
      render t (Some items) = t) /\
  (forall t prompt_variables, no_open t = true -> render t prompt_variables = t).
Proof.
  assert (first : forall t items,
      Forall (fun item => contains (single_braces (fst item)) t = false) items ->
      render t (Some items) = t).
  { intros t items. unfold render, render_items.
    induction 1 as [|[n v] items Hn _ IH]; [reflexivity|].
    cbn [fold_left]. cbn [fst] in Hn.
    assert (E : substitute t (n, v) = t).
    { unfold substitute.
      rewrite (replace_absent (double_braces n)), replace_absent;
        auto using contains_single_double; discriminate. }
    now rewrite E. }
  split; [exact first|].
  intros t [items|] Ht; [|reflexivity].
  apply first. apply Forall_forall. intros [n v] _.
  now apply no_open_contains.
Qed.

Lemma render_without_placeholders_witness :
  render "Use {{topic}} and {style}" (Some [("name", "Ann"); ("age", "5")])
  = "Use {{topic}} and {style}".
Proof.
  destruct render_without_placeholders as [H _].
  apply H. repeat constructor.
Defined.

Lemma replace_double_in_single_pieces (n v : string) (pieces : list string) :
  brace_free n = true ->
  Forall (fun piece => no_open piece = true) pieces ->
  replace (double_braces n) v (String.concat (single_braces n) pieces)
  = String.concat (single_braces n) pieces.
Proof.
  intros Hn. induction 1 as [|a pieces Ha _ IH]; [reflexivity|].
  destruct pieces as [|b pieces].
  - now apply replace_no_open.
  - change (String.concat (single_braces n) (a :: b :: pieces))
      with (a ++ single_braces n ++ String.concat (single_braces n) (b :: pieces)).
    set (rest := String.concat (single_braces n) (b :: pieces)) in *.
    unfold double_braces at 1. cbn [append]. rewrite replace_scan by assumption.
    f_equal. unfold single_braces. cbn [append].
    rewrite replace_nomatch.
    + f_equal. rewrite replace_scan.
      * f_equal. exact IH.
      * rewrite no_open_append, brace_free_no_open by assumption. reflexivity.
    + discriminate.
    + rewrite !startswith_cons, Ascii.eqb_refl, append_assoc. cbn [andb append].
      now apply startswith_open_close.
Qed.

Lemma replace_in_pieces (p' v : string) (pieces : list string) :
  Forall (fun piece => no_open piece = true) pieces ->
  replace (String "{" p') v (String.concat (String "{" p') pieces)
  = String.concat v pieces.
Proof.
  induction 1 as [|a pieces Ha _ IH]; [reflexivity|].
  destruct pieces as [|b pieces].
  - now apply replace_no_open.
  - change (String.concat (String "{" p') (a :: b :: pieces))
      with (a ++ String "{" p' ++ String.concat (String "{" p') (b :: pieces)).
    change (String.concat v (a :: b :: pieces))
      with (a ++ v ++ String.concat v (b :: pieces)).
    rewrite replace_scan by assumption.
    rewrite replace_match by discriminate. now rewrite IH.
Qed.

Lemma no_open_concat (v : string) (pieces : list string) :
  no_open v = true ->
  Forall (fun piece => no_open piece = true) pieces ->
  no_open (String.concat v pieces) = true.
Proof.
  intros Hv. induction 1 as [|a pieces Ha _ IH]; [reflexivity|].
  destruct pieces as [|b pieces]; [exact Ha|].
  change (String.concat v (a :: b :: pieces))
    with (a ++ v ++ String.concat v (b :: pieces)).
  now rewrite !no_open_append, Ha, Hv, IH.
Qed.

(** X2. Every occurrence of a variable's placeholder is replaced: in a
    template made of pieces without opening brace joined by the
    single-brace placeholder of a brace-free name, rendering puts the
    value, whatever it holds, in place of each placeholder; joined by the
    double-brace placeholder it does so for a value without opening
    brace. *)
Theorem render_replaces_every_occurrence :
  forall n v pieces,
    brace_free n = true ->
    Forall (fun piece => no_open piece = true) pieces ->
    render (String.concat (single_braces n) pieces) (Some [(n, v)])
    = String.concat v pieces /\
    (no_open v = true ->
     render (String.concat (double_braces n) pieces) (Some [(n, v)])
     = String.concat v pieces).
Proof.
  intros n v pieces Hn Hp. unfold render, render_items. cbn [fold_left].
  unfold substitute. split.
  - rewrite replace_double_in_single_pieces by assumption.
    now apply replace_in_pieces.
  - intros Hv. unfold double_braces at 1 2. cbn [append].
    rewrite replace_in_pieces by assumption.
    apply replace_no_open. now apply no_open_concat.
Qed.

Lemma render_replaces_every_occurrence_witness :
  render "Dear {name}, hello {name}!" (Some [("name", "{Ann}")])
  = "Dear {Ann}, hello {Ann}!".
Proof.
  destruct (render_replaces_every_occurrence
              "name" "{Ann}" ["Dear "; ", hello "; "!"]) as [H _].
  - reflexivity.
  - repeat constructor.
  - exact H.
Defined.

(** ** Response parsers: what they read and how they are chosen *)

(** The key under which the first element of a family's array holds the
    generated text. *)
Definition text_key (f : ModelFamily) : string :=
  match f with
  | Titan => "outputText"
  | _ => "text"
  end.

(** X3. Each parser returns the text of the first element of its
    family's array, whatever else the body and the array hold: the value
    under "text" (titan: "outputText") of the first element for claude,
    titan, mistral and cohere, the value under "data", "text" of the first
    completion for ai21, and the value under "generation" for llama. *)
Theorem parsers_read_first_text :
  (forall f kv first rest v,
      In f [Claude; Titan; Mistral; Cohere] ->
      lookup (expected_field f) kv = Some (JArr (JObj first :: rest)) ->
      lookup (text_key f) first = Some v ->
      parser_of f (JObj kv) = Ok v) /\
  (forall kv first rest data v,
      lookup "completions" kv = Some (JArr (JObj first :: rest)) ->
      lookup "data" first = Some (JObj data) ->
      lookup "text" data = Some v ->
      parser_of Ai21 (JObj kv) = Ok v) /\
  (forall kv v,
      lookup "generation" kv = Some v ->
      parser_of Llama (JObj kv) = Ok v).
Proof.
  split; [|split].
  - intros f kv first rest v Hf Hfield Hv.
    destruct Hf as [<- | [<- | [<- | [<- | []]]]];
      cbv [parser_of tag parsers table_get String.eqb Ascii.eqb Bool.eqb];
      cbv [parse_response_claude parse_response_titan parse_response_mistral
           parse_response_cohere py_get bind];
      cbn [expected_field text_key] in Hfield, Hv; rewrite Hfield;
      cbn [truthy py_index0]; rewrite Hv; reflexivity.
  - intros kv first rest data v Hfield Hdata Hv.
    cbv [parser_of tag parsers table_get String.eqb Ascii.eqb Bool.eqb].
    cbv [parse_response_ai21 py_get bind]. rewrite Hfield.
    cbn [truthy py_index0]. rewrite Hdata, Hv. reflexivity.
  - intros kv v Hv.
    cbv [parser_of tag parsers table_get String.eqb Ascii.eqb Bool.eqb].
    cbv [parse_response_llama py_get]. now rewrite Hv.
Qed.

Lemma parsers_read_first_text_witness :
  parser_of Titan
            (JObj [("inputTextTokenCount", JInt 5);
                   ("results",
                    JArr [JObj [("tokenCount", JInt 2); ("outputText", JStr "Hi");
                                ("completionReason", JStr "FINISH")];
                          JObj [("outputText", JStr "second")]])])
  = Ok (JStr "Hi").
Proof.
  destruct parsers_read_first_text as [H _].
  apply (H Titan _ [("tokenCount", JInt 2); ("outputText", JStr "Hi");
                    ("completionReason", JStr "FINISH")]
           [JObj [("outputText", JStr "second")]]).
  - simpl. auto.
  - reflexivity.
  - reflexivity.
Defined.

(** X4. [parse_model_response] applies the parser of the family the
    classifier gives the model identifier, and the claude parser when the
    family is unknown. *)
Theorem parse_model_response_dispatch :
  forall model_id response_body,
    parse_model_response model_id response_body
    = match classify_spec model_id with
      | Claude | Unknown => parse_response_claude response_body
      | Titan => parse_response_titan response_body
      | Llama => parse_response_llama response_body
      | Mistral => parse_response_mistral response_body
      | Cohere => parse_response_cohere response_body
      | Ai21 => parse_response_ai21 response_body
      end.
Proof.
  intros model_id response_body. unfold parse_model_response.
  rewrite get_model_type_refines.
  destruct (classify_spec model_id); reflexivity.
Qed.

(** X5. Whatever the response body, the parsers that test their array
    before indexing it (titan, mistral, cohere, ai21) and the llama parser
    never raise [IndexError]. *)
Theorem guarded_parsers_never_index_error :
  forall f response_body e,
    In f [Titan; Llama; Mistral; Cohere; Ai21] ->
    parser_of f response_body = Raise e ->
    exn_cls e <> IndexError.
Proof.
  intros f body e Hf H Hcls.
  destruct Hf as [<- | [<- | [<- | [<- | [<- | []]]]]];
    cbv [parser_of tag parsers table_get String.eqb Ascii.eqb Bool.eqb] in H;
    cbv [parse_response_titan parse_response_llama parse_response_mistral
         parse_response_cohere parse_response_ai21] in H;
    destruct body as [| | | | |kv]; cbn [py_get bind] in H;
    try (injection H as <-; discriminate Hcls);
    match type of H with
    | context [lookup ?k kv] =>
        destruct (lookup k kv) as [[| [] | z | [|c s] | [|x l] | [|p l]]|]
    end;
    cbn [truthy py_index0 bind negb] in H;
    try discriminate H;
    try (injection H as <-; discriminate Hcls);
    try (destruct (z =? 0)%Z; cbn [negb bind] in H;
         first [discriminate H | injection H as <-; discriminate Hcls]);
    try (destruct x as [| | | | |xkv]; cbn [py_get bind] in H;
         try (injection H as <-; discriminate Hcls);
         try discriminate H;
         match type of H with
         | context [lookup ?k xkv] =>
             destruct (lookup k xkv) as [[| | | | |dkv]|]; cbn [py_get bind] in H;
             first [discriminate H | injection H as <-; discriminate Hcls]
         end).
Qed.

Lemma guarded_parsers_never_index_error_witness :
  exn_cls (no_attribute (JStr "x") "get") <> IndexError.
Proof.
  apply (guarded_parsers_never_index_error
           Cohere (JObj [("generations", JArr [JStr "x"])])).
  - simpl. auto.
  - reflexivity.
Defined.

(** ** The substitution loop on the values it receives *)

Lemma fill_loop_app_strings (items : list (string * string))
      (more : list (string * json)) (t : string) :
  fill_loop (JStr t)
            (map (fun item => (fst item, JStr (snd item))) items ++ more)%list
  = fill_loop (JStr (render_items t items)) more.
Proof.
  revert t. induction items as [|[n v] items IH]; intros t; [reflexivity|].
  cbn [map fst snd app fill_loop as_str replace_arg bind]. now rewrite IH.
Qed.

(** X6. When a value of the mapping is not a string, the substitution
    loop raises the [TypeError] of [str.replace] naming the first such
    value: its type, and [None] for a null value, whatever follows it. *)
Theorem fill_rejects_first_non_string_value :
  forall t items n v rest,
    (forall s, v <> JStr s) ->
    fill (JStr t)
         (JObj (map (fun item => (fst item, JStr (snd item))) items
                ++ (n, v) :: rest)%list)
    = Raise (Exn TypeError
                 ("replace() argument 2 must be str, not " ++ argument_name v)).
Proof.
  intros t items n v rest Hv. unfold fill.
  assert (Ht : truthy (JObj (map (fun item : string * string =>
                                    (fst item, JStr (snd item))) items
                             ++ (n, v) :: rest)%list) = true).
  { destruct items; reflexivity. }
  rewrite Ht. cbn [py_items bind]. rewrite fill_loop_app_strings.
  cbn [fill_loop as_str bind].
  destruct v; try reflexivity. now destruct (Hv s).
Qed.

Lemma fill_rejects_first_non_string_value_witness :
  fill (JStr "Hi {name}, age {age}")
       (JObj [("name", JStr "Ann"); ("age", JNull); ("city", JInt 5)])
  = Raise (Exn TypeError "replace() argument 2 must be str, not None") /\
  fill (JStr "Hi {name}, age {age}")
       (JObj [("name", JStr "Ann"); ("age", JInt 5); ("city", JNull)])
  = Raise (Exn TypeError "replace() argument 2 must be str, not int").
Proof.
  split.
  - apply (fill_rejects_first_non_string_value
             "Hi {name}, age {age}" [("name", "Ann")] "age" JNull
             [("city", JInt 5)]).
    intros s. discriminate.
  - apply (fill_rejects_first_non_string_value
             "Hi {name}, age {age}" [("name", "Ann")] "age" (JInt 5)
             [("city", JNull)]).
    intros s. discriminate.
Defined.

(** ** The invokers, path by path *)

(** The parameters of the catalog call: the version goes with them only
    when it is truthy. *)
Definition lookup_params (prompt_identifier prompt_version : json) : json :=
  JObj (if truthy prompt_version
        then [("promptIdentifier", prompt_identifier);
              ("promptVersion", prompt_version)]
        else [("promptIdentifier", prompt_identifier)]).

(** Lines 351 and 352. *)
Definition template_text_of (variant : json) : result json :=
  template_config <- py_get variant "templateConfiguration" (JObj []) ;;
  text_config <- py_get template_config "text" (JObj []) ;;
  py_get text_config "text" (JStr "").

(** Lines 366 to 376. *)
Definition request_of (w : World) (variant filled_template : json)
  : result resolved :=
  model_id <- py_get variant "modelId" (JStr "") ;;
  inference <- py_get variant "inferenceConfiguration" (JObj []) ;;
  inference_config <- py_get inference "text" (JObj []) ;;
  additional_fields <- py_get variant "additionalModelRequestFields" (JObj []) ;;
  request_body <- build_request_body w model_id filled_template
                                     inference_config additional_fields ;;
  Ok {| r_model_id := model_id;
        r_filled_template := filled_template;
        r_request_body := request_body |}.

Lemma get_prompt_details_eq (w : World) (pid version : json) :
  get_prompt_details w pid version
  = match get_prompt w (lookup_params pid version) with
    | Ok response => JObj [("success", JBool true); ("prompt", response)]
    | Raise e => failure (exn_str e)
    end.
Proof.
  unfold get_prompt_details, lookup_params.
  destruct (truthy version); cbn [app];
    match goal with |- context [get_prompt w ?p] => destruct (get_prompt w p) end;
    reflexivity.
Qed.

Lemma resolve_lookup_fails (w : World) (pid vars version : json) (e : exn) :
  get_prompt w (lookup_params pid version) = Raise e ->
  resolve w pid vars version = Ok (Return (failure (exn_str e))).
Proof.
  intros H. unfold resolve. rewrite get_prompt_details_eq, H. reflexivity.
Qed.

Lemma resolve_found (w : World) (pid vars version prompt : json) :
  get_prompt w (lookup_params pid version) = Ok prompt ->
  resolve w pid vars version
  = (variant <- select_variant prompt ;;
     if negb (truthy variant)
     then Ok (Return (failure "No variant found in prompt")) else
     template_text <- template_text_of variant ;;
     if negb (truthy template_text)
     then Ok (Return (failure "No template text found in prompt")) else
     filled_template <- fill template_text vars ;;
     x <- request_of w variant filled_template ;;
     Ok (Continue x)).
Proof.
  intros H. unfold resolve. rewrite get_prompt_details_eq, H.
  cbn [py_getitem lookup String.eqb Ascii.eqb Bool.eqb truthy negb bind].
  destruct (select_variant prompt) as [variant|e]; [|reflexivity].
  cbn [bind]. destruct (truthy variant); [|reflexivity]. cbn [negb].
  unfold template_text_of.
  destruct (py_get variant "templateConfiguration" (JObj [])) as [tc|e];
    [|reflexivity]. cbn [bind].
  destruct (py_get tc "text" (JObj [])) as [tx|e]; [|reflexivity]. cbn [bind].
  destruct (py_get tx "text" (JStr "")) as [tt|e]; [|reflexivity]. cbn [bind].
  destruct (truthy tt); [|reflexivity]. cbn [negb].
  destruct (fill tt vars) as [filled|e]; [|reflexivity]. cbn [bind].
  unfold request_of.
  destruct (py_get variant "modelId" (JStr "")) as [m|e]; [|reflexivity].
  cbn [bind].
  destruct (py_get variant "inferenceConfiguration" (JObj [])) as [inf|e];
    [|reflexivity]. cbn [bind].
  destruct (py_get inf "text" (JObj [])) as [ic|e]; [|reflexivity]. cbn [bind].
  destruct (py_get variant "additionalModelRequestFields" (JObj [])) as [af|e];
    [|reflexivity]. cbn [bind].
  destruct (build_request_body w m filled ic af); reflexivity.
Qed.

Lemma fill_str_values (t : string) (items : list (string * string)) :
  fill (JStr t) (str_values items) = Ok (JStr (render t (Some items))).
Proof.
  unfold fill, str_values. destruct items as [|item items]; [reflexivity|].
  cbn [truthy map py_items bind]. apply (fill_loop_strings (item :: items)).
Qed.

Lemma resolve_return_failure (w : World) (pid vars version envelope : json) :
  resolve w pid vars version = Ok (Return envelope) ->
  exists message, envelope = failure message.
Proof.
  destruct (get_prompt w (lookup_params pid version)) as [prompt|e] eqn:Hg.
  - rewrite (resolve_found _ _ _ _ _ Hg).
    destruct (select_variant prompt) as [variant|e]; [|discriminate].
    cbn [bind]. destruct (truthy variant); cbn [negb].
    + destruct (template_text_of variant) as [tt|e]; [|discriminate].
      cbn [bind]. destruct (truthy tt); cbn [negb].
      * destruct (fill tt vars) as [filled|e]; [|discriminate]. cbn [bind].
        destruct (request_of w variant filled); discriminate.
      * intros [= <-]. now eexists.
    + intros [= <-]. now eexists.
  - rewrite (resolve_lookup_fails _ _ _ _ _ Hg). intros [= <-]. now eexists.
Qed.

(** X7. When the catalog call raises, the details operation and both
    invokers answer with the failure envelope of the catalog's error; the
    call is made with the prompt identifier, and with the version only
    when the version is truthy. *)
Theorem catalog_failure_passes_through :
  forall w prompt_identifier prompt_variables prompt_version stream e,
    get_prompt w (lookup_params prompt_identifier prompt_version) = Raise e ->
    get_prompt_details w prompt_identifier prompt_version = failure (exn_str e) /\
    invoke_prompt w prompt_identifier prompt_variables prompt_version stream
    = failure (exn_str e) /\
    invoke_prompt_stream w prompt_identifier prompt_variables prompt_version
    = failure (exn_str e).
Proof.
  intros w pid vars version stream e H. split; [|split].
  - now rewrite get_prompt_details_eq, H.
  - unfold invoke_prompt. now rewrite (resolve_lookup_fails _ _ _ _ _ H).
  - unfold invoke_prompt_stream. now rewrite (resolve_lookup_fails _ _ _ _ _ H).
Qed.

Lemma catalog_failure_passes_through_witness :
  invoke_prompt_stream failing_catalog (JStr "MISSING") JNull (JStr "") 
  = failure "An error occurred (ResourceNotFoundException) when calling the GetPrompt operation: Prompt not found".
Proof.
  apply (catalog_failure_passes_through
           failing_catalog (JStr "MISSING") JNull (JStr "") false
           (Exn ClientError
                "An error occurred (ResourceNotFoundException) when calling the GetPrompt operation: Prompt not found")).
  reflexivity.
Defined.

(** X8. When the variant the invokers select has no template text (the
    keys are missing, or the text is empty or null), both invokers answer
    "No template text found in prompt", whatever the variables, the
    streaming flag and the model would give. *)
Theorem missing_template_is_rejected :
  forall w prompt_identifier prompt_variables prompt_version stream
         prompt variant template_text,
    get_prompt w (lookup_params prompt_identifier prompt_version) = Ok prompt ->
    select_variant prompt = Ok variant ->
    truthy variant = true ->
    template_text_of variant = Ok template_text ->
    truthy template_text = false ->
    invoke_prompt w prompt_identifier prompt_variables prompt_version stream
    = failure "No template text found in prompt" /\
    invoke_prompt_stream w prompt_identifier prompt_variables prompt_version
    = failure "No template text found in prompt".
Proof.
  intros w pid vars version stream prompt variant tt Hg Hs Hv Ht Hf.
  unfold invoke_prompt, invoke_prompt_stream.
  rewrite (resolve_found _ _ _ _ _ Hg), Hs. cbn [bind].
  rewrite Hv. cbn [negb]. rewrite Ht. cbn [bind]. rewrite Hf.
  split; reflexivity.
Qed.

(** A catalog holding one prompt whose only variant names a model and no
    template. *)
Definition untemplated_world : World :=
  {| get_prompt := fun _ =>
       Ok (JObj [("defaultVariant", JStr "variantOne");
                 ("variants",
                  JArr [JObj [("name", JStr "variantOne");
                              ("modelId", JStr "amazon.titan-text-express-v1")]])]);
     list_prompt_versions_call := list_prompt_versions_call example_world;
     build_request := build_request example_world;
     invoke_model := invoke_model example_world;
     invoke_model_with_response_stream :=
       invoke_model_with_response_stream example_world;
     json_loads := json_loads example_world;
     py_str := py_str example_world |}.

Lemma missing_template_is_rejected_witness :
  invoke_prompt untemplated_world (JStr "P") (str_values [("q", "a")]) JNull false
  = failure "No template text found in prompt" /\
  invoke_prompt_stream untemplated_world (JStr "P") (str_values [("q", "a")]) JNull
  = failure "No template text found in prompt".
Proof.
  apply (missing_template_is_rejected
           untemplated_world (JStr "P") (str_values [("q", "a")]) JNull false
           (JObj [("defaultVariant", JStr "variantOne");
                  ("variants",
                   JArr [JObj [("name", JStr "variantOne");
                               ("modelId", JStr "amazon.titan-text-express-v1")]])])
           (JObj [("name", JStr "variantOne");
                  ("modelId", JStr "amazon.titan-text-express-v1")])
           (JStr ""));
    reflexivity.
Defined.

(** X9. The successful path of [invoke_prompt]: when the catalog gives a
    definition, the selected variant has a non-empty template text and a
    string model identifier, the variables are strings, and the request
    builder, the model call and the parser all return, the result is the
    success envelope whose "filled_template" is the rendered template,
    whose "model_type" is the classification of the model identifier, and
    whose "completion" is what the family's parser reads in the body,
    which is returned under "metadata". *)
Theorem invoke_prompt_success_path :
  forall w prompt_identifier prompt_version items prompt variant t m
         inference inference_config additional_fields request_body
         response_body completion_text,
    get_prompt w (lookup_params prompt_identifier prompt_version) = Ok prompt ->
    select_variant prompt = Ok variant ->
    truthy variant = true ->
    template_text_of variant = Ok (JStr t) ->
    t <> "" ->
    py_get variant "modelId" (JStr "") = Ok (JStr m) ->
    py_get variant "inferenceConfiguration" (JObj []) = Ok inference ->
    py_get inference "text" (JObj []) = Ok inference_config ->
    py_get variant "additionalModelRequestFields" (JObj []) = Ok additional_fields ->
    build_request w (get_model_type m) (JStr (render t (Some items)))
                  inference_config additional_fields = Ok request_body ->
    invoke_model w m request_body = Ok response_body ->
    parse_model_response m response_body = Ok completion_text ->
    invoke_prompt w prompt_identifier (str_values items) prompt_version false
    = JObj [("success", JBool true);
            ("completion", completion_text);
            ("model_id", JStr m);
            ("model_type", JStr (get_model_type m));
            ("prompt_id", prompt_identifier);
            ("filled_template", JStr (render t (Some items)));
            ("metadata", JObj [("response_body", response_body)])].
Proof.
  intros w pid version items prompt variant t m inf ic af rb body c
         Hg Hs Hv Ht Hne Hm Hinf Hic Haf Hb Hi Hp.
  unfold invoke_prompt.
  rewrite (resolve_found _ _ _ _ _ Hg), Hs. cbn [bind].
  rewrite Hv. cbn [negb]. rewrite Ht. cbn [bind truthy].
  apply String.eqb_neq in Hne. rewrite Hne. cbn [negb].
  rewrite fill_str_values. cbn [bind].
  unfold request_of. rewrite Hm. cbn [bind]. rewrite Hinf. cbn [bind].
  rewrite Hic. cbn [bind]. rewrite Haf. cbn [bind].
  unfold build_request_body. cbn [as_str bind]. rewrite Hb.
  cbn [bind r_model_id r_request_body r_filled_template as_str].
  rewrite Hi. cbn [bind]. rewrite Hp. reflexivity.
Qed.

Lemma invoke_prompt_success_path_witness :
  invoke_prompt example_world (JStr "PROMPT1") (str_values [("q", "2+2?")])
                JNull false
  = JObj [("success", JBool true);
          ("completion", JStr "4");
          ("model_id", JStr "anthropic.claude-3-sonnet-20240229-v1:0");
          ("model_type", JStr (get_model_type "anthropic.claude-3-sonnet-20240229-v1:0"));
          ("prompt_id", JStr "PROMPT1");
          ("filled_template", JStr (render "Answer: {{q}}" (Some [("q", "2+2?")])));
          ("metadata",
           JObj [("response_body",
                  JObj [("content",
                         JArr [JObj [("type", JStr "text"); ("text", JStr "4")]])])])].
Proof.
  apply (invoke_prompt_success_path
           example_world (JStr "PROMPT1") JNull [("q", "2+2?")] example_prompt
           (JObj [("name", JStr "variantOne");
                  ("modelId", JStr "anthropic.claude-3-sonnet-20240229-v1:0");
                  ("templateConfiguration",
                   JObj [("text", JObj [("text", JStr "Answer: {{q}}")])])])
           "Answer: {{q}}" "anthropic.claude-3-sonnet-20240229-v1:0"
           (JObj []) (JObj []) (JObj [])
           (JObj [("prompt", JStr "Answer: 2+2?")])
           (JObj [("content", JArr [JObj [("type", JStr "text"); ("text", JStr "4")]])])
           (JStr "4"));
    try reflexivity.
  discriminate.
Defined.

(** The world [w] with another model call. *)
Definition with_invoke_model (w : World)
           (call : string -> json -> result json) : World :=
  {| get_prompt := get_prompt w;
     list_prompt_versions_call := list_prompt_versions_call w;
     build_request := build_request w;
     invoke_model := call;
     invoke_model_with_response_stream := invoke_model_with_response_stream w;
     json_loads := json_loads w;
     py_str := py_str w |}.

(** X10. With the streaming flag set, [invoke_prompt] always answers with
    a failure envelope, and its answer does not depend on the model call:
    the call is never made. *)
Theorem streaming_flag_always_rejected :
  forall w prompt_identifier prompt_variables prompt_version,
    (exists message,
        invoke_prompt w prompt_identifier prompt_variables prompt_version true
        = failure message) /\
    (forall call,
        invoke_prompt (with_invoke_model w call) prompt_identifier
                      prompt_variables prompt_version true
        = invoke_prompt w prompt_identifier prompt_variables prompt_version true).
Proof.
  intros w pid vars version. split.
  - unfold invoke_prompt.
    destruct (resolve w pid vars version) as [[envelope|x]|e] eqn:E;
      cbn [bind guarded].
    + apply resolve_return_failure in E as [message ->]. now exists message.
    + now eexists.
    + now eexists.
  - intros call. reflexivity.
Qed.

(** The shape every operation answers with: the failure envelope, or a
    dictionary that starts with a true "success". *)
Definition envelope (r : json) : Prop :=
  (exists message, r = failure message) \/
  (exists fields, r = JObj (("success", JBool true) :: fields)).

Lemma envelope_failure (message : string) : envelope (failure message).
Proof. left. now exists message. Qed.

Lemma envelope_success (fields : list (string * json)) :
  envelope (JObj (("success", JBool true) :: fields)).
Proof. right. now exists fields. Qed.

Create HintDb envelopes.
#[local] Hint Resolve envelope_failure envelope_success : envelopes.

Lemma get_prompt_details_envelope (w : World) (pid version : json) :
  envelope (get_prompt_details w pid version).
Proof.
  rewrite get_prompt_details_eq.
  destruct (get_prompt w (lookup_params pid version)); auto with envelopes.
Qed.

Lemma list_prompt_versions_envelope (w : World) (pid max_results : json) :
  envelope (list_prompt_versions w pid max_results).
Proof.
  unfold list_prompt_versions.
  destruct (list_prompt_versions_call w pid max_results) as [response|e];
    cbn [bind guarded]; auto with envelopes.
  destruct (py_get response "promptSummaries" (JArr [])) as [versions|e];
    cbn [bind guarded]; auto with envelopes.
  destruct (py_get response "nextToken" JNull) as [token|e];
    cbn [bind guarded]; auto with envelopes.
Qed.

Lemma invoke_prompt_envelope (w : World) (pid vars version : json)
      (stream : bool) :
  envelope (invoke_prompt w pid vars version stream).
Proof.
  unfold invoke_prompt.
  destruct (resolve w pid vars version) as [[r|x]|e] eqn:E;
    cbn [bind guarded]; auto with envelopes.
  - apply resolve_return_failure in E as [message ->]. auto with envelopes.
  - destruct stream; cbn [guarded]; auto with envelopes.
    destruct (as_str (r_model_id x) "lower") as [m|e];
      cbn [bind guarded]; auto with envelopes.
    destruct (invoke_model w m (r_request_body x)) as [body|e];
      cbn [bind guarded]; auto with envelopes.
    destruct (parse_model_response m body) as [c|e];
      cbn [bind guarded]; auto with envelopes.
Qed.

Lemma invoke_prompt_stream_envelope (w : World) (pid vars version : json) :
  envelope (invoke_prompt_stream w pid vars version).
Proof.
  unfold invoke_prompt_stream.
  destruct (resolve w pid vars version) as [[r|x]|e] eqn:E;
    cbn [bind guarded]; auto with envelopes.
  - apply resolve_return_failure in E as [message ->]. auto with envelopes.
  - destruct (as_str (r_model_id x) "lower") as [m|e];
      cbn [bind guarded]; auto with envelopes.
    destruct (invoke_model_with_response_stream w m (r_request_body x))
      as [[events|]|e]; cbn [bind guarded]; auto with envelopes.
    destruct (collect_stream w (get_model_type m) ("", []) events) as [acc|e];
      cbn [bind guarded]; auto with envelopes.
Qed.

Lemma batch_invoke_prompt_envelope (env : nat -> World) (timed_out : nat -> bool)
      (pid variable_sets version max_workers : json) :
  envelope (batch_invoke_prompt env timed_out pid variable_sets version max_workers).
Proof.
  destruct (thread_pool max_workers) as [[]|e] eqn:Hp.
  - destruct (py_iter variable_sets) as [sets|e] eqn:Hs.
    + rewrite (batch_report _ _ _ _ _ _ sets Hp Hs). auto with envelopes.
    + rewrite (batch_wholesale _ _ _ _ _ _ e) by (right; auto).
      auto with envelopes.
  - rewrite (batch_wholesale _ _ _ _ _ _ e) by (left; auto). auto with envelopes.
Qed.

#[local] Hint Resolve get_prompt_details_envelope list_prompt_versions_envelope
  invoke_prompt_envelope invoke_prompt_stream_envelope
  batch_invoke_prompt_envelope : envelopes.

(** X11. Every operation, and the dispatcher for every tool name and
    every argument value, answers with an envelope: the failure envelope
    with its message, or a dictionary whose first entry is a true
    "success". *)
Theorem every_operation_returns_an_envelope :
  (forall w pid version, envelope (get_prompt_details w pid version)) /\
  (forall w pid max_results, envelope (list_prompt_versions w pid max_results)) /\
  (forall w pid vars version stream,
      envelope (invoke_prompt w pid vars version stream)) /\
  (forall w pid vars version, envelope (invoke_prompt_stream w pid vars version)) /\
  (forall env timed_out pid variable_sets version max_workers,
      envelope (batch_invoke_prompt env timed_out pid variable_sets version
                                    max_workers)) /\
  (forall w env timed_out name arguments,
      envelope (call_tool w env timed_out name arguments)).
Proof.
  repeat split; auto with envelopes.
  intros w env timed_out name arguments. unfold call_tool.
  repeat match goal with
         | |- context [if ?b then _ else _] => destruct b
         end;
    repeat match goal with
           | |- context [bind ?m _] => destruct m; cbn [bind guarded]
           end;
    cbn [guarded]; auto with envelopes.
Qed.

(** ** Variant selection on the keys a definition may lack *)

Lemma select_variant_default_absent (kv : list (string * json))
      (vs : list json) :
  lookup "defaultVariant" kv = None ->
  lookup "variants" kv = Some (JArr vs) ->
  Forall named vs ->
  select_variant (JObj kv)
  = Ok (match find (has_nameb "variantOne") vs with
        | Some v => v
        | None => match vs with x :: _ => x | [] => JNull end
        end).
Proof.
  intros Hd Hv Hn. unfold select_variant, py_get. rewrite Hd, Hv.
  cbn [bind py_iter]. rewrite (find_default_named "variantOne" vs Hn). cbn [bind].
  destruct (find (has_nameb "variantOne") vs) as [v|] eqn:E.
  - apply find_some in E as [Hin _].
    rewrite Forall_forall in Hn. rewrite (named_truthy v (Hn v Hin)).
    reflexivity.
  - destruct vs; reflexivity.
Qed.

(** X12. A definition without "defaultVariant" is treated as declaring
    the default "variantOne": the first variant of that name is selected,
    and the first variant when none bears it.  A definition without
    "variants" has no variant: both invokers answer "No variant found in
    prompt". *)
Theorem selection_defaults :
  (forall kv vs,
      lookup "defaultVariant" kv = None ->
      lookup "variants" kv = Some (JArr vs) ->
      Forall named vs ->
      select_variant (JObj kv)
      = Ok (match find (has_nameb "variantOne") vs with
            | Some v => v
            | None => match vs with x :: _ => x | [] => JNull end
            end)) /\
  (forall w prompt_identifier prompt_variables prompt_version stream kv,
      get_prompt w (lookup_params prompt_identifier prompt_version) = Ok (JObj kv) ->
      lookup "variants" kv = None ->
      invoke_prompt w prompt_identifier prompt_variables prompt_version stream
      = failure "No variant found in prompt" /\
      invoke_prompt_stream w prompt_identifier prompt_variables prompt_version
      = failure "No variant found in prompt").
Proof.
  split; [exact select_variant_default_absent|].
  intros w pid vars version stream kv Hg Hv.
  assert (Hs : select_variant (JObj kv) = Ok JNull).
  { unfold select_variant, py_get. rewrite Hv.
    destruct (lookup "defaultVariant" kv); reflexivity. }
  unfold invoke_prompt, invoke_prompt_stream.
  rewrite (resolve_found _ _ _ _ _ Hg), Hs. split; reflexivity.
Qed.

Lemma selection_defaults_witness :
  let va := JObj [("name", JStr "draft")] in
  let vb := JObj [("name", JStr "variantOne")] in
  select_variant (JObj [("name", JStr "survey"); ("variants", JArr [va; vb])])
  = Ok vb.
Proof.
  intros va vb. destruct selection_defaults as [H _].
  rewrite (H [("name", JStr "survey"); ("variants", JArr [va; vb])] [va; vb]).
  - reflexivity.
  - reflexivity.
  - reflexivity.
  - repeat constructor.
    + exists [("name", JStr "draft")], "draft". split; reflexivity.
    + exists [("name", JStr "variantOne")], "variantOne". split; reflexivity.
Defined.

(** ** Streaming: what the loop accumulates *)

Lemma concat_snoc (l : list string) (t : string) :
  String.concat "" (l ++ [t]) = String.concat "" l ++ t.
Proof.
  induction l as [|a l IH]; [reflexivity|].
  destruct l as [|b l].
  - reflexivity.
  - change (String.concat "" ((a :: b :: l) ++ [t]))
      with (a ++ "" ++ String.concat "" ((b :: l) ++ [t])).
    change (String.concat "" (a :: b :: l))
      with (a ++ "" ++ String.concat "" (b :: l)).
    rewrite IH. cbn [append]. now rewrite append_assoc.
Qed.

Lemma concat_app (l l' : list string) :
  String.concat "" (l ++ l') = String.concat "" l ++ String.concat "" l'.
Proof.
  revert l. induction l' as [|t l' IH]; intros l.
  - rewrite app_nil_r. cbn. now rewrite append_nil_r.
  - change (l ++ t :: l')%list with (l ++ [t] ++ l')%list.
    rewrite app_assoc, IH, concat_snoc, append_assoc.
    f_equal. specialize (IH [t]). cbn [app] in IH. rewrite IH. cbn.
    reflexivity.
Qed.

Lemma accumulate_ok (acc acc' : string * list string) (text : json) :
  accumulate acc text = Ok acc' ->
  exists t, text = JStr t /\ acc' = (fst acc ++ t, (snd acc ++ [t])%list).
Proof.
  destruct text; try discriminate. intros [= <-]. now eexists.
Qed.

(** One event leaves the accumulator as it is or appends one chunk,
    which for claude and titan is not empty. *)
Lemma on_event_step (w : World) (model_type : string)
      (acc acc' : string * list string) (ev : event) :
  on_event w model_type acc ev = Ok acc' ->
  acc' = acc \/
  exists t, acc' = (fst acc ++ t, (snd acc ++ [t])%list) /\
            (model_type = "claude" \/ model_type = "titan" -> t <> "").
Proof.
  unfold on_event. destruct ev as [bytes|]; [|intros [= <-]; now left].
  destruct (json_loads w bytes) as [chunk_obj|e]; [|discriminate]. cbn [bind].
  destruct (String.eqb_spec model_type "claude") as [Hc|Hc].
  - destruct (py_get chunk_obj "type" JNull) as [type|e]; [|discriminate].
    cbn [bind].
    destruct (py_eq type (JStr "content_block_delta")); [|intros [= <-]; now left].
    destruct (py_get chunk_obj "delta" (JObj [])) as [delta|e]; [|discriminate].
    cbn [bind].
    destruct (py_get delta "text" (JStr "")) as [text|e]; [|discriminate].
    cbn [bind].
    destruct (truthy text) eqn:Et; [|intros [= <-]; now left].
    intros H. apply accumulate_ok in H as (t & -> & ->). right. exists t.
    split; [reflexivity|]. intros _ ->. discriminate Et.
  - destruct (String.eqb_spec model_type "titan") as [Ht|Ht].
    + destruct (py_get chunk_obj "outputText" (JStr "")) as [text|e];
        [|discriminate]. cbn [bind].
      destruct (truthy text) eqn:Et; [|intros [= <-]; now left].
      intros H. apply accumulate_ok in H as (t & -> & ->). right. exists t.
      split; [reflexivity|]. intros _ ->. discriminate Et.
    + intros H. apply accumulate_ok in H as (t & _ & ->). right. exists t.
      split; [reflexivity|]. intros [H | H]; congruence.
Qed.

Lemma collect_stream_appends (w : World) (model_type : string)
      (events : list event) (acc acc' : string * list string) :
  collect_stream w model_type acc events = Ok acc' ->
  exists new,
    snd acc' = (snd acc ++ new)%list /\
    fst acc' = fst acc ++ String.concat "" new /\
    List.length new <= List.length events /\
    (model_type = "claude" \/ model_type = "titan" ->
     Forall (fun t => t <> "") new).
Proof.
  revert acc. induction events as [|ev events IH]; intros acc H.
  - injection H as <-. exists []. rewrite app_nil_r. cbn [String.concat].
    rewrite append_nil_r. repeat split; auto.
  - cbn [collect_stream] in H.
    destruct (on_event w model_type acc ev) as [acc1|e] eqn:E; [|discriminate].
    cbn [bind] in H. destruct (IH _ H) as (new & Hs & Hf & Hl & Hn).
    apply on_event_step in E as [-> | (t & -> & Ht)].
    + exists new. repeat split; auto. cbn [List.length]. lia.
    + exists (t :: new). cbn [fst snd] in Hs, Hf. repeat split.
      * rewrite Hs, <- app_assoc. reflexivity.
      * rewrite Hf, append_assoc. f_equal.
        change (t :: new) with ([t] ++ new)%list. rewrite concat_app. cbn.
        reflexivity.
      * cbn [List.length]. lia.
      * intros Hm. constructor; auto.
Qed.

(** X13. The streaming loop only appends: the chunks it ends with are
    those it started with followed by new ones, at most one for each
    event, and the text it ends with is the text it started with followed
    by the new chunks in order. *)
Theorem stream_loop_appends_in_order :
  forall w model_type events acc acc',
    collect_stream w model_type acc events = Ok acc' ->
    exists new,
      snd acc' = (snd acc ++ new)%list /\
      fst acc' = fst acc ++ String.concat "" new /\
      List.length new <= List.length events.
Proof.
  intros w model_type events acc acc' H.
  destruct (collect_stream_appends _ _ _ _ _ H) as (new & Hs & Hf & Hl & _).
  now exists new.
Qed.

Lemma stream_loop_appends_in_order_witness :
  exists new,
    ["Hello"; " world"] = (["Hello"] ++ new)%list /\
    "Hello world" = "Hello" ++ String.concat "" new /\
    List.length new <= 2.
Proof.
  exact (stream_loop_appends_in_order
           example_world "claude" [OtherEvent; ChunkEvent " world"]
           ("Hello", ["Hello"]) ("Hello world", ["Hello"; " world"]) eq_refl).
Defined.

(** X14. For the claude and titan families no empty chunk is recorded:
    an event whose text is empty, absent or null adds nothing. *)
Theorem no_empty_chunk_for_claude_and_titan :
  forall w model_type events acc,
    model_type = "claude" \/ model_type = "titan" ->
    collect_stream w model_type ("", []) events = Ok acc ->
    Forall (fun t => t <> "") (snd acc).
Proof.
  intros w model_type events acc Hm H.
  destruct (collect_stream_appends _ _ _ _ _ H) as (new & Hs & _ & _ & Hn).
  cbn [snd app] in Hs. rewrite Hs. now apply Hn.
Qed.

Lemma no_empty_chunk_for_claude_and_titan_witness :
  Forall (fun t => t <> "") ["Hello"; " world"].
Proof.
  exact (no_empty_chunk_for_claude_and_titan
           example_world "claude"
           [ChunkEvent "Hello"; ChunkEvent ""; ChunkEvent " world"]
           ("Hello world", ["Hello"; " world"]) (or_introl eq_refl) eq_refl).
Defined.

(** The chunk an event gives in the generic branch: the text of the
    decoded object. *)
Definition stringified (w : World) (ev : event) : list string :=
  match ev with
  | ChunkEvent bytes =>
      match json_loads w bytes with
      | Ok chunk_obj => [py_str w chunk_obj]
      | Raise _ => []
      end
  | OtherEvent => []
  end.

Definition decodes (w : World) (ev : event) : Prop :=
  match ev with
  | ChunkEvent bytes => exists chunk_obj, json_loads w bytes = Ok chunk_obj
  | OtherEvent => True
  end.

Lemma collect_stream_generic (w : World) (model_type : string)
      (events : list event) (acc : string * list string) :
  model_type <> "claude" -> model_type <> "titan" ->
  Forall (decodes w) events ->
  collect_stream w model_type acc events
  = Ok (fst acc ++ String.concat "" (flat_map (stringified w) events),
        (snd acc ++ flat_map (stringified w) events)%list).
Proof.
  intros Hc Ht Hd. revert acc.
  induction Hd as [|ev events Hev _ IH]; intros [full chunks].
  - cbn. now rewrite append_nil_r, app_nil_r.
  - cbn [collect_stream flat_map]. destruct ev as [bytes|].
    + destruct Hev as [chunk_obj Hj]. unfold on_event, stringified.
      rewrite Hj. cbn [bind].
      apply String.eqb_neq in Hc, Ht. rewrite Hc, Ht.
      cbn [accumulate bind fst snd]. rewrite IH. cbn [fst snd].
      rewrite concat_app, <- app_assoc, append_assoc. reflexivity.
    + cbn [on_event bind stringified app]. apply IH.
Qed.

(** X15. For a family other than claude and titan, when every chunk
    decodes, each chunk event gives exactly one chunk, the text [str]
    gives of the decoded object, in arrival order; events without chunk
    give none. *)
Theorem generic_stream_stringifies_every_chunk :
  forall w model_type events,
    model_type <> "claude" -> model_type <> "titan" ->
    Forall (decodes w) events ->
    collect_stream w model_type ("", []) events
    = Ok (String.concat "" (flat_map (stringified w) events),
          flat_map (stringified w) events).
Proof.
  intros w model_type events Hc Ht Hd.
  now rewrite collect_stream_generic.
Qed.

(** The world [w] with another [str]. *)
Definition with_py_str (w : World) (str : json -> string) : World :=
  {| get_prompt := get_prompt w;
     list_prompt_versions_call := list_prompt_versions_call w;
     build_request := build_request w;
     invoke_model := invoke_model w;
     invoke_model_with_response_stream := invoke_model_with_response_stream w;
     json_loads := json_loads w;
     py_str := str |}.

Lemma generic_stream_stringifies_every_chunk_witness :
  collect_stream (with_py_str example_world type_name) "llama" ("", [])
                 [ChunkEvent "a"; OtherEvent; ChunkEvent "b"]
  = Ok ("dictdict", ["dict"; "dict"]).
Proof.
  apply (generic_stream_stringifies_every_chunk
           (with_py_str example_world type_name) "llama"
           [ChunkEvent "a"; OtherEvent; ChunkEvent "b"]).
  - discriminate.
  - discriminate.
  - repeat constructor; eexists; reflexivity.
Defined.

(** X16. The successful path of [invoke_prompt_stream]: when the request
    is built, the stream call returns and every event is processed, the
    result is the success envelope whose "completion" is the
    concatenation of its "chunks" and whose "chunk_count" is their
    number; a response without body gives the empty completion and no
    chunk. *)
Theorem stream_completion_is_concatenation_of_chunks :
  forall w prompt_identifier prompt_variables prompt_version x m body chunks,
    resolve w prompt_identifier prompt_variables prompt_version
    = Ok (Continue x) ->
    r_model_id x = JStr m ->
    invoke_model_with_response_stream w m (r_request_body x) = Ok body ->
    match body with
    | Some events =>
        exists full,
          collect_stream w (get_model_type m) ("", []) events = Ok (full, chunks)
    | None => chunks = []
    end ->
    invoke_prompt_stream w prompt_identifier prompt_variables prompt_version
    = JObj [("success", JBool true);
            ("completion", JStr (String.concat "" chunks));
            ("chunks", JArr (map JStr chunks));
            ("chunk_count", JInt (Z.of_nat (List.length chunks)));
            ("model_id", JStr m);
            ("model_type", JStr (get_model_type m));
            ("prompt_id", prompt_identifier)].
Proof.
  intros w pid vars version x m body chunks Hr Hm Hs Hc.
  unfold invoke_prompt_stream. rewrite Hr. cbn [bind]. rewrite Hm.
  cbn [as_str bind]. rewrite Hs. cbn [bind].
  destruct body as [events|].
  - destruct Hc as [full Hc]. rewrite Hc. cbn [bind fst snd guarded].
    destruct (collect_stream_appends _ _ _ _ _ Hc) as (new & Hn & Hf & _).
    cbn [fst snd app append] in Hn, Hf. subst. reflexivity.
  - subst chunks. reflexivity.
Qed.

(** The world [w] with a stream call that gives [body]. *)
Definition with_stream (w : World) (body : option (list event)) : World :=
  {| get_prompt := get_prompt w;
     list_prompt_versions_call := list_prompt_versions_call w;
     build_request := build_request w;
     invoke_model := invoke_model w;
     invoke_model_with_response_stream := fun _ _ => Ok body;
     json_loads := json_loads w;
     py_str := py_str w |}.

Lemma stream_completion_is_concatenation_of_chunks_witness :
  invoke_prompt_stream
    (with_stream example_world
                 (Some [ChunkEvent "Hello"; OtherEvent; ChunkEvent " world"]))
    (JStr "PROMPT1") (str_values [("q", "2+2?")]) JNull
  = JObj [("success", JBool true);
          ("completion", JStr (String.concat "" ["Hello"; " world"]));
          ("chunks", JArr (map JStr ["Hello"; " world"]));
          ("chunk_count", JInt (Z.of_nat (List.length ["Hello"; " world"])));
          ("model_id", JStr "anthropic.claude-3-sonnet-20240229-v1:0");
          ("model_type", JStr (get_model_type "anthropic.claude-3-sonnet-20240229-v1:0"));
          ("prompt_id", JStr "PROMPT1")].
Proof.
  apply (stream_completion_is_concatenation_of_chunks
           (with_stream example_world
                        (Some [ChunkEvent "Hello"; OtherEvent; ChunkEvent " world"]))
           (JStr "PROMPT1") (str_values [("q", "2+2?")]) JNull
           {| r_model_id := JStr "anthropic.claude-3-sonnet-20240229-v1:0";
              r_filled_template := JStr "Answer: 2+2?";
              r_request_body := JObj [("prompt", JStr "Answer: 2+2?")] |}
           "anthropic.claude-3-sonnet-20240229-v1:0"
           (Some [ChunkEvent "Hello"; OtherEvent; ChunkEvent " world"])
           ["Hello"; " world"]).
  - reflexivity.
  - reflexivity.
  - reflexivity.
  - exists "Hello world". reflexivity.
Defined.

(** ** Batch reports *)

(** X17. The counts of a report agree with its lists: "successful" and
    "failed" are the lengths of "results" and "errors", and they add up
    to "total_invocations", the number of submitted variable sets. *)
Theorem batch_counts_agree :
  forall env timed_out pid variable_sets sets version max_workers,
    thread_pool max_workers = Ok tt ->
    py_iter variable_sets = Ok sets ->
    let report :=
      batch_invoke_prompt env timed_out pid variable_sets version max_workers in
    let results := report_list "results" report in
    let errors := report_list "errors" report in
    py_get report "total_invocations" JNull
    = Ok (JInt (Z.of_nat (List.length sets))) /\
    py_get report "successful" JNull
    = Ok (JInt (Z.of_nat (List.length results))) /\
    py_get report "failed" JNull = Ok (JInt (Z.of_nat (List.length errors))) /\
    (Z.of_nat (List.length results) + Z.of_nat (List.length errors)
     = Z.of_nat (List.length sets))%Z.
Proof.
  intros env timed_out pid variable_sets sets version max_workers Hp Hs.
  cbv zeta. rewrite (batch_report _ _ _ _ _ _ sets Hp Hs).
  cbn [py_get report_list lookup String.eqb Ascii.eqb Bool.eqb].
  repeat split.
  rewrite <- Nat2Z.inj_add, kept_length, length_map, length_enumerate_from.
  reflexivity.
Qed.

Lemma batch_counts_agree_witness :
  let report :=
    batch_invoke_prompt
      (fun i => if Nat.eqb i 1 then failing_catalog else example_world)
      (fun i => Nat.eqb i 2)
      (JStr "PROMPT1")
      (JArr [str_values [("q", "a")]; str_values [("q", "b")];
             str_values [("q", "c")]])
      JNull (JInt 2) in
  py_get report "successful" JNull = Ok (JInt 1) /\
  py_get report "failed" JNull = Ok (JInt 2).
Proof.
  destruct (batch_counts_agree
              (fun i => if Nat.eqb i 1 then failing_catalog else example_world)
              (fun i => Nat.eqb i 2) (JStr "PROMPT1")
              (JArr [str_values [("q", "a")]; str_values [("q", "b")];
                     str_values [("q", "c")]])
              [str_values [("q", "a")]; str_values [("q", "b")];
               str_values [("q", "c")]]
              JNull (JInt 2) eq_refl eq_refl) as (_ & H1 & H2 & _).
  split; [exact H1 | exact H2].
Defined.

(** X18. When no task times out, the indices carried by the entries of
    the two lists are, together, exactly the indices 0 to N-1 of the
    submitted variable sets, each once. *)
Theorem batch_indices_complete_without_timeouts :
  forall env timed_out pid variable_sets sets version max_workers,
    thread_pool max_workers = Ok tt ->
    py_iter variable_sets = Ok sets ->
    (forall i, timed_out i = false) ->
    let report :=
      batch_invoke_prompt env timed_out pid variable_sets version max_workers in
    Permutation (indices (report_list "results" report) ++
                 indices (report_list "errors" report))
                (map Z.of_nat (seq 0 (List.length sets))).
Proof.
  intros env timed_out pid variable_sets sets version max_workers Hp Hs Hno.
  cbv zeta. rewrite (batch_report _ _ _ _ _ _ sets Hp Hs).
  cbn [report_list lookup String.eqb Ascii.eqb Bool.eqb].
  now apply kept_indices_complete.
Qed.

Lemma batch_indices_complete_without_timeouts_witness :
  let report :=
    batch_invoke_prompt
      (fun i => if Nat.eqb i 0 then failing_catalog else example_world)
      (fun _ => false) (JStr "PROMPT1")
      (JArr [str_values [("q", "a")]; str_values [("q", "b")]])
      JNull (JInt 2) in
  Permutation (indices (report_list "results" report) ++
               indices (report_list "errors" report))
              [0; 1]%Z.
Proof.
  exact (batch_indices_complete_without_timeouts
           (fun i => if Nat.eqb i 0 then failing_catalog else example_world)
           (fun _ => false) (JStr "PROMPT1")
           (JArr [str_values [("q", "a")]; str_values [("q", "b")]])
           [str_values [("q", "a")]; str_values [("q", "b")]]
           JNull (JInt 2) eq_refl eq_refl (fun _ => eq_refl)).
Defined.

Lemma envelope_success_flag (r : json) :
  envelope r ->
  (exists fields, r = JObj (("success", JBool true) :: fields)) /\
  py_get r "success" (JBool false) = Ok (JBool true) \/
  (exists message, r = failure message) /\
  py_get r "success" (JBool false) = Ok (JBool false).
Proof.
  intros [[message ->] | [fields ->]].
  - right. split; [now exists message | reflexivity].
  - left. split; [now exists fields | reflexivity].
Qed.

(** X19. Each task is settled on its own: for a task whose worker
    returns in time, the report holds the entry made of the task's index,
    its variable set and the result of its own invocation, among the
    results when that invocation succeeded and among the errors when it
    failed, whatever the other tasks do. *)
Theorem batch_task_settled_by_its_own_result :
  forall env timed_out pid sets version max_workers i var_set,
    thread_pool max_workers = Ok tt ->
    nth_error sets i = Some var_set ->
    timed_out i = false ->
    let report :=
      batch_invoke_prompt env timed_out pid (JArr sets) version max_workers in
    let result := invoke_prompt (env i) pid var_set version false in
    let entry ok :=
      JObj [("index", JInt (Z.of_nat i)); ("variables", var_set);
            ("result", result); ("success", JBool ok)] in
    (exists fields, result = JObj (("success", JBool true) :: fields)) /\
    In (entry true) (report_list "results" report) \/
    (exists message, result = failure message) /\
    In (entry false) (report_list "errors" report).
Proof.
  intros env timed_out pid sets version max_workers i var_set Hp Hn Ht.
  cbv zeta.
  rewrite (batch_report env timed_out pid (JArr sets) version max_workers sets
                        Hp eq_refl).
  cbn [report_list lookup String.eqb Ascii.eqb Bool.eqb].
  pose proof (in_enumerate_from sets 0 i var_set Hn) as Hin. cbn [Nat.add] in Hin.
  apply (in_map (future_result env timed_out pid version)) in Hin.
  destruct (envelope_success_flag _ (invoke_prompt_envelope (env i) pid var_set
                                                            version false))
    as [[Hr Hf] | [Hr Hf]]; [left | right]; (split; [exact Hr|]).
  - apply (in_kept true) in Hin.
    + revert Hin. unfold future_result, settled, invoke_single. rewrite Ht, Hf.
      exact (fun H => H).
    + unfold future_result, settled, invoke_single. rewrite Ht, Hf. reflexivity.
  - apply (in_kept false) in Hin.
    + revert Hin. unfold future_result, settled, invoke_single. rewrite Ht, Hf.
      exact (fun H => H).
    + unfold future_result, settled, invoke_single. rewrite Ht, Hf. reflexivity.
Qed.

Lemma batch_task_settled_by_its_own_result_witness :
  let report :=
    batch_invoke_prompt
      (fun i => if Nat.eqb i 0 then failing_catalog else example_world)
      (fun _ => false) (JStr "PROMPT1")
      (JArr [str_values [("q", "a")]; str_values [("q", "2+2?")]])
      JNull (JInt 2) in
  In (JObj [("index", JInt 1); ("variables", str_values [("q", "2+2?")]);
            ("result",
             invoke_prompt example_world (JStr "PROMPT1")
                           (str_values [("q", "2+2?")]) JNull false);
            ("success", JBool true)])
     (report_list "results" report).
Proof.
  destruct (batch_task_settled_by_its_own_result
              (fun i => if Nat.eqb i 0 then failing_catalog else example_world)
              (fun _ => false) (JStr "PROMPT1")
              [str_values [("q", "a")]; str_values [("q", "2+2?")]]
              JNull (JInt 2) 1 (str_values [("q", "2+2?")])
              eq_refl eq_refl eq_refl) as [[_ H] | [[message H] _]].
  - exact H.
  - discriminate H.
Defined.

(** ** Tool declarations and dispatch *)

(** [list_tools()]: the name of each declared tool with the keys its
    input schema lists under "required", in source order. *)
Definition list_tools : list (string * list string) :=
  [ ("list_bedrock_prompts", []);
    ("get_bedrock_prompt_details", ["prompt_identifier"]);
    ("invoke_bedrock_prompt", ["prompt_identifier"]);
    ("invoke_bedrock_prompt_stream", ["prompt_identifier"]);
    ("batch_invoke_bedrock_prompt", ["prompt_identifier"; "variable_sets"]);
    ("list_bedrock_prompt_versions", ["prompt_identifier"]) ].

(** X20. A name that [list_tools] does not declare is answered with the
    failure envelope "Unknown tool: " followed by the name, whatever the
    arguments. *)
Theorem undeclared_tool_is_unknown :
  forall w env timed_out name arguments,
    ~ In name (map fst list_tools) ->
    call_tool w env timed_out name arguments
    = failure ("Unknown tool: " ++ name).
Proof.
  intros w env timed_out name arguments Hn. unfold call_tool.
  repeat match goal with
         | |- context [String.eqb name ?s] =>
             destruct (String.eqb_spec name s) as [->|_];
             [exfalso; apply Hn; simpl; tauto|]
         end.
  reflexivity.
Qed.

Lemma undeclared_tool_is_unknown_witness :
  call_tool example_world (fun _ => example_world) (fun _ => false)
            "list_prompts" (JObj [])
  = failure "Unknown tool: list_prompts".
Proof.
  apply (undeclared_tool_is_unknown
           example_world (fun _ => example_world) (fun _ => false)
           "list_prompts" (JObj [])).
  intros H. simpl in H.
  repeat (destruct H as [H | H]; [discriminate H|]). exact H.
Defined.

(** X21. A call of a declared tool whose arguments lack a key the tool's
    schema requires, the required keys before it being present, is
    answered with the failure envelope of the [KeyError]: the key between
    single quotes.  No service is called. *)
Theorem missing_required_argument :
  forall w env timed_out name required before key after kv,
    In (name, required) list_tools ->
    required = (before ++ key :: after)%list ->
    (forall k, In k before -> lookup k kv <> None) ->
    lookup key kv = None ->
    call_tool w env timed_out name (JObj kv) = failure ("'" ++ key ++ "'").
Proof.
  intros w env timed_out name required before key after kv Hin Hreq Hb Hk.
  simpl in Hin.
  repeat (destruct Hin as [Hin | Hin]; [injection Hin as <- <-|]);
    [| | | | | |destruct Hin];
    (destruct before as [|b before];
     [|destruct before as [|b' before];
       [|try (destruct before; discriminate Hreq)]]);
    try discriminate Hreq;
    inversion Hreq; subst; clear Hreq;
    unfold call_tool;
    cbn [String.eqb Ascii.eqb Bool.eqb py_getitem py_get bind guarded];
    first
      [ now rewrite Hk
      | destruct (lookup "prompt_identifier" kv) eqn:E;
        [ cbn [bind]; now rewrite Hk
        | exfalso; apply (Hb "prompt_identifier"); [now left | exact E] ] ].
Qed.

Lemma missing_required_argument_witness :
  call_tool example_world (fun _ => example_world) (fun _ => false)
            "batch_invoke_bedrock_prompt"
            (JObj [("prompt_identifier", JStr "PROMPT1"); ("max_workers", JInt 3)])
  = failure "'variable_sets'".
Proof.
  apply (missing_required_argument
           example_world (fun _ => example_world) (fun _ => false)
           "batch_invoke_bedrock_prompt" ["prompt_identifier"; "variable_sets"]
           ["prompt_identifier"] "variable_sets" []).
  - simpl. tauto.
  - reflexivity.
  - intros k [<- | []]. discriminate.
  - reflexivity.
Defined.

(* ================================================================= *)
(** ** Adapter table: the request builders *)

Module Builders.
Import PyStr Py Classifier Adapter.

(** The numeric coercions of the builders.  A float is outside [json]:
    [py_float] is [float()] with its result as the value the request
    carries, [py_int] is [int()], and the two float literals the builders
    use as defaults are given with them. *)
Record Coercions := {
  py_int : json -> result json;
  py_float : json -> result json;
  float_1_0 : json;
  float_0_999 : json
}.

(** [key in container] for a string key. *)
Definition py_in (key : string) (container : json) : result bool :=
  match container with
  | JObj kv => Ok (match lookup key kv with Some _ => true | None => false end)
  | JArr l => Ok (existsb (py_eq (JStr key)) l)
  | JStr s => Ok (contains key s)
  | _ => Raise (Exn TypeError
                    ("argument of type '" ++ type_name container
                     ++ "' is not iterable"))
  end.

Section WithCoercions.
Variable c : Coercions.

(** [int(inference_config.get("maxTokens", 2000))] and its two float
    companions. *)
Definition max_tokens_of (inference_config : json) : result json :=
  v <- py_get inference_config "maxTokens" (JInt 2000) ;; py_int c v.
Definition temperature_of (inference_config : json) : result json :=
  v <- py_get inference_config "temperature" (float_1_0 c) ;; py_float c v.
Definition top_p_of (inference_config : json) : result json :=
  v <- py_get inference_config "topP" (float_0_999 c) ;; py_float c v.

Definition build_request_body_claude
           (filled_template inference_config additional_fields : json)
  : result json :=
  max_tokens <- max_tokens_of inference_config ;;
  temperature <- temperature_of inference_config ;;
  top_p <- top_p_of inference_config ;;
  let request_body :=
    [("anthropic_version", JStr "bedrock-2023-05-31");
     ("max_tokens", max_tokens);
     ("temperature", temperature);
     ("top_p", top_p);
     ("messages", JArr [JObj [("role", JStr "user");
                              ("content", filled_template)]])] in
  has_top_k <- py_in "top_k" additional_fields ;;
  request_body <-
    (if has_top_k : bool
     then v <- py_getitem additional_fields "top_k" ;;
          top_k <- py_int c v ;;
          Ok (request_body ++ [("top_k", top_k)])%list
     else Ok request_body) ;;
  stop_sequences <- py_get inference_config "stopSequences" (JArr []) ;;
  Ok (JObj (if truthy stop_sequences
            then (request_body ++ [("stop_sequences", stop_sequences)])%list
            else request_body)).

Definition build_request_body_titan
           (filled_template inference_config additional_fields : json)
  : result json :=
  max_tokens <- max_tokens_of inference_config ;;
  temperature <- temperature_of inference_config ;;
  top_p <- top_p_of inference_config ;;
  stop_sequences <- py_get inference_config "stopSequences" (JArr []) ;;
  Ok (JObj [("inputText", filled_template);
            ("textGenerationConfig",
             JObj [("maxTokenCount", max_tokens);
                   ("temperature", temperature);
                   ("topP", top_p);
                   ("stopSequences", stop_sequences)])]).

Definition build_request_body_llama
           (filled_template inference_config additional_fields : json)
  : result json :=
  max_tokens <- max_tokens_of inference_config ;;
  temperature <- temperature_of inference_config ;;
  top_p <- top_p_of inference_config ;;
  Ok (JObj [("prompt", filled_template);
            ("max_gen_len", max_tokens);
            ("temperature", temperature);
            ("top_p", top_p)]).

Definition build_request_body_mistral
           (filled_template inference_config additional_fields : json)
  : result json :=
  max_tokens <- max_tokens_of inference_config ;;
  temperature <- temperature_of inference_config ;;
  top_p <- top_p_of inference_config ;;
  stop_sequences <- py_get inference_config "stopSequences" (JArr []) ;;
  Ok (JObj [("prompt", filled_template);
            ("max_tokens", max_tokens);
            ("temperature", temperature);
            ("top_p", top_p);
            ("stop", stop_sequences)]).

Definition build_request_body_cohere
           (filled_template inference_config additional_fields : json)
  : result json :=
  max_tokens <- max_tokens_of inference_config ;;
  temperature <- temperature_of inference_config ;;
  top_p <- top_p_of inference_config ;;
  stop_sequences <- py_get inference_config "stopSequences" (JArr []) ;;
  Ok (JObj [("prompt", filled_template);
            ("max_tokens", max_tokens);
            ("temperature", temperature);
            ("p", top_p);
            ("stop_sequences", stop_sequences)]).

Definition build_request_body_ai21
           (filled_template inference_config additional_fields : json)
  : result json :=
  max_tokens <- max_tokens_of inference_config ;;
  temperature <- temperature_of inference_config ;;
  top_p <- top_p_of inference_config ;;
  stop_sequences <- py_get inference_config "stopSequences" (JArr []) ;;
  Ok (JObj [("prompt", filled_template);
            ("maxTokens", max_tokens);
            ("temperature", temperature);
            ("topP", top_p);
            ("stopSequences", stop_sequences)]).

(** The [builders] table of [build_request_body], in source order. *)
Definition builders : list (string * (json -> json -> json -> result json)) :=
  [ ("claude", build_request_body_claude);
    ("titan", build_request_body_titan);
    ("llama", build_request_body_llama);
    ("mistral", build_request_body_mistral);
    ("cohere", build_request_body_cohere);
    ("ai21", build_request_body_ai21) ].

(** [builders.get(model_type, build_request_body_claude)] applied. *)
Definition request_builder (model_type : string)
           (filled_template inference_config additional_fields : json)
  : result json :=
  table_get model_type builders build_request_body_claude
            filled_template inference_config additional_fields.

End WithCoercions.

(** Where the request of a family holds the prompt text. *)
Definition prompt_in (f : ModelFamily) (request : json) : result json :=
  match f with
  | Claude | Unknown =>
      messages <- py_getitem request "messages" ;;
      first <- py_index0 messages ;;
      py_getitem first "content"
  | Titan => py_getitem request "inputText"
  | Llama | Mistral | Cohere | Ai21 => py_getitem request "prompt"
  end.

(** Where the request of a family holds the stop sequences; the llama
    request holds none. *)
Definition stop_in (f : ModelFamily) (request : json) : result json :=
  match f with
  | Claude | Unknown => py_getitem request "stop_sequences"
  | Titan =>
      config <- py_getitem request "textGenerationConfig" ;;
      py_getitem config "stopSequences"
  | Mistral => py_getitem request "stop"
  | Cohere => py_getitem request "stop_sequences"
  | Ai21 => py_getitem request "stopSequences"
  | Llama => Raise (Exn KeyError "'stop'")
  end.

End Builders.

Import Builders.

(** A key is bound in a dictionary. *)
Definition has_key (key : string) (d : json) : bool :=
  match d with
  | JObj kv => match lookup key kv with Some _ => true | None => false end
  | _ => false
  end.

(** Runs a builder that returned: every step it made returned. *)
Ltac run_builder H :=
  repeat first
    [ progress cbn [bind] in H
    | match type of H with
      | context [bind (if ?b then _ else _) _] => destruct b
      | context [bind (bind ?m _) _] =>
          let E := fresh "E" in
          destruct m eqn:E; cbn [bind] in H; [|discriminate H]
      | context [bind ?m _] =>
          let E := fresh "E" in
          destruct m eqn:E; cbn [bind] in H; [|discriminate H]
      | context [if ?b then _ else _] =>
          let E := fresh "E" in destruct b eqn:E
      end ];
  injection H as <-.

(** X22. [build_request_body] applies the builder of the family the
    classifier gives the model identifier, and the claude builder when the
    family is unknown. *)
Theorem request_builder_dispatch :
  forall c model_id filled_template inference_config additional_fields,
    request_builder c (get_model_type model_id) filled_template
                    inference_config additional_fields
    = (match classify_spec model_id with
       | Claude | Unknown => build_request_body_claude c
       | Titan => build_request_body_titan c
       | Llama => build_request_body_llama c
       | Mistral => build_request_body_mistral c
       | Cohere => build_request_body_cohere c
       | Ai21 => build_request_body_ai21 c
       end) filled_template inference_config additional_fields.
Proof.
  intros c model_id filled ic af. rewrite get_model_type_refines.
  destruct (classify_spec model_id); reflexivity.
Qed.

Lemma request_holds_prompt (c : Coercions) (f : ModelFamily)
      (filled ic af request : json) :
  request_builder c (tag f) filled ic af = Ok request ->
  prompt_in f request = Ok filled.
Proof.
  intros H. destruct f;
    cbv [request_builder tag builders table_get String.eqb Ascii.eqb Bool.eqb] in H;
    cbv [build_request_body_claude build_request_body_titan
         build_request_body_llama build_request_body_mistral
         build_request_body_cohere build_request_body_ai21] in H;
    run_builder H; reflexivity.
Qed.

(** X23. Whenever a builder returns, the request holds the filled
    template, unchanged, at the place its family reads the prompt: the
    content of the first message for claude and unknown families,
    "inputText" for titan, "prompt" for the others. *)
Theorem request_carries_the_filled_template :
  forall c f filled_template inference_config additional_fields request,
    request_builder c (tag f) filled_template inference_config additional_fields
    = Ok request ->
    prompt_in f request = Ok filled_template.
Proof. exact request_holds_prompt. Qed.

(** Coercions for the examples: [int()] and [float()] of an integer. *)
Definition example_coercions : Coercions :=
  {| py_int := fun v =>
       match v with
       | JInt z => Ok (JInt z)
       | JBool b => Ok (JInt (if b then 1 else 0))
       | _ => Raise (Exn TypeError "int() argument must be a string, a bytes-like object or a real number")
       end;
     py_float := fun v =>
       match v with
       | JInt z => Ok (JInt z)
       | _ => Raise (Exn TypeError "float() argument must be a string or a real number")
       end;
     float_1_0 := JInt 1;
     float_0_999 := JInt 1 |}.

Lemma request_carries_the_filled_template_witness :
  prompt_in Claude
            (JObj [("anthropic_version", JStr "bedrock-2023-05-31");
                   ("max_tokens", JInt 300);
                   ("temperature", JInt 1);
                   ("top_p", JInt 1);
                   ("messages",
                    JArr [JObj [("role", JStr "user");
                                ("content", JStr "Answer: 2+2?")]]);
                   ("top_k", JInt 40);
                   ("stop_sequences", JArr [JStr "END"])])
  = Ok (JStr "Answer: 2+2?").
Proof.
  apply (request_carries_the_filled_template
           example_coercions Claude (JStr "Answer: 2+2?")
           (JObj [("maxTokens", JInt 300); ("stopSequences", JArr [JStr "END"])])
           (JObj [("top_k", JInt 40)])).
  reflexivity.
Defined.

(** X24. The stop sequences of the inference configuration: the claude
    builder sends them under "stop_sequences" when they are truthy and
    sends no such key otherwise; the titan, mistral, cohere and ai21
    builders always send them, the empty list when the configuration has
    none; the llama builder sends none under any name. *)
Theorem stop_sequences_in_requests :
  forall c f filled_template inference_config additional_fields request,
    request_builder c (tag f) filled_template inference_config additional_fields
    = Ok request ->
    exists stop,
      py_get inference_config "stopSequences" (JArr []) = Ok stop /\
      match f with
      | Claude | Unknown =>
          if truthy stop
          then stop_in f request = Ok stop
          else has_key "stop_sequences" request = false
      | Llama =>
          has_key "stop" request = false /\
          has_key "stop_sequences" request = false /\
          has_key "stopSequences" request = false
      | Titan | Mistral | Cohere | Ai21 => stop_in f request = Ok stop
      end.
Proof.
  intros c f filled ic af request H. destruct f;
    cbv [request_builder tag builders table_get String.eqb Ascii.eqb Bool.eqb] in H;
    cbv [build_request_body_claude build_request_body_titan
         build_request_body_llama build_request_body_mistral
         build_request_body_cohere build_request_body_ai21] in H.
  - run_builder H; eexists; (split; [reflexivity|]);
      match goal with E : truthy _ = _ |- _ => rewrite E end; reflexivity.
  - run_builder H. eexists. split; reflexivity.
  - (* the configuration is a dictionary, since its keys were read *)
    unfold max_tokens_of in H.
    destruct ic as [| | | | |kv]; try discriminate H.
    run_builder H. eexists. split; [reflexivity|]. repeat split.
  - run_builder H. eexists. split; reflexivity.
  - run_builder H. eexists. split; reflexivity.
  - run_builder H. eexists. split; reflexivity.
  - run_builder H; eexists; (split; [reflexivity|]);
      match goal with E : truthy _ = _ |- _ => rewrite E end; reflexivity.
Qed.

Lemma stop_sequences_in_requests_witness :
  exists stop,
    py_get (JObj [("maxTokens", JInt 300)]) "stopSequences" (JArr []) = Ok stop /\
    stop_in Mistral
            (JObj [("prompt", JStr "Answer: 2+2?");
                   ("max_tokens", JInt 300);
                   ("temperature", JInt 1);
                   ("top_p", JInt 1);
                   ("stop", JArr [])])
    = Ok stop.
Proof.
  exact (stop_sequences_in_requests
           example_coercions Mistral (JStr "Answer: 2+2?")
           (JObj [("maxTokens", JInt 300)]) (JObj [])
           (JObj [("prompt", JStr "Answer: 2+2?");
                  ("max_tokens", JInt 300);
                  ("temperature", JInt 1);
                  ("top_p", JInt 1);
                  ("stop", JArr [])])
           eq_refl).
Defined.

(** X25. The additional model request fields reach the claude request
    only: the other five builders build the same request whatever those
    fields are, and the claude request holds "top_k", coerced by [int()],
    exactly when the fields hold that key. *)
Theorem additional_fields_only_reach_claude :
  (forall c f filled_template inference_config additional_fields other_fields,
      In f [Titan; Llama; Mistral; Cohere; Ai21] ->
      request_builder c (tag f) filled_template inference_config additional_fields
      = request_builder c (tag f) filled_template inference_config other_fields) /\
  (forall c filled_template inference_config fields request,
      build_request_body_claude c filled_template inference_config (JObj fields)
      = Ok request ->
      match lookup "top_k" fields with
      | None => has_key "top_k" request = false
      | Some v => exists k, py_int c v = Ok k /\ py_getitem request "top_k" = Ok k
      end).
Proof.
  split.
  - intros c f filled ic af af' Hf.
    destruct Hf as [<- | [<- | [<- | [<- | [<- | []]]]]]; reflexivity.
  - intros c filled ic fields request H.
    unfold build_request_body_claude in H. cbn [py_in py_getitem] in H.
    destruct (lookup "top_k" fields) as [v|].
    + run_builder H; eexists; split; reflexivity.
    + run_builder H; reflexivity.
Qed.

Lemma additional_fields_only_reach_claude_witness :
  exists k,
    py_int example_coercions (JBool true) = Ok k /\
    py_getitem
      (JObj [("anthropic_version", JStr "bedrock-2023-05-31");
             ("max_tokens", JInt 2000);
             ("temperature", JInt 1);
             ("top_p", JInt 1);
             ("messages",
              JArr [JObj [("role", JStr "user"); ("content", JStr "Hi")]]);
             ("top_k", JInt 1)])
      "top_k"
    = Ok k.
Proof.
  destruct additional_fields_only_reach_claude as [_ H].
  exact (H example_coercions (JStr "Hi") (JObj [])
           [("top_p", JInt 3); ("top_k", JBool true)] _ eq_refl).
Defined.

Lemma resolve_continue_request (w : World) (pid vars version : json)
      (x : resolved) :
  resolve w pid vars version = Ok (Continue x) ->
  exists inference_config additional_fields,
    build_request_body w (r_model_id x) (r_filled_template x)
                       inference_config additional_fields
    = Ok (r_request_body x).
Proof.
  destruct (get_prompt w (lookup_params pid version)) as [prompt|e] eqn:Hg.
  - rewrite (resolve_found _ _ _ _ _ Hg).
    destruct (select_variant prompt) as [variant|e]; [|discriminate].
    cbn [bind]. destruct (truthy variant); [|discriminate]. cbn [negb].
    destruct (template_text_of variant) as [tt|e]; [|discriminate].
    cbn [bind]. destruct (truthy tt); [|discriminate]. cbn [negb].
    destruct (fill tt vars) as [filled|e]; [|discriminate]. cbn [bind].
    unfold request_of.
    destruct (py_get variant "modelId" (JStr "")) as [m|e]; [|discriminate].
    cbn [bind].
    destruct (py_get variant "inferenceConfiguration" (JObj [])) as [inf|e];
      [|discriminate]. cbn [bind].
    destruct (py_get inf "text" (JObj [])) as [ic|e]; [|discriminate]. cbn [bind].
    destruct (py_get variant "additionalModelRequestFields" (JObj [])) as [af|e];
      [|discriminate]. cbn [bind].
    destruct (build_request_body w m filled ic af) as [rb|e] eqn:Hb; [|discriminate].
    cbn [bind]. intros [= <-]. cbn [r_model_id r_filled_template r_request_body].
    now exists ic, af.
  - rewrite (resolve_lookup_fails _ _ _ _ _ Hg). discriminate.
Qed.

(** X26. With the builders of the source as the request builder, the
    request body that the invokers pass to the model call holds, at the
    place the model's family reads its prompt, the very filled template
    that the result reports. *)
Theorem model_receives_the_filled_template :
  forall c w prompt_identifier prompt_variables prompt_version x,
    (forall model_type filled_template inference_config additional_fields,
        build_request w model_type filled_template inference_config
                      additional_fields
        = request_builder c model_type filled_template inference_config
                          additional_fields) ->
    resolve w prompt_identifier prompt_variables prompt_version
    = Ok (Continue x) ->
    exists m,
      r_model_id x = JStr m /\
      prompt_in (classify_spec m) (r_request_body x) = Ok (r_filled_template x).
Proof.
  intros c w pid vars version x Hw Hr.
  apply resolve_continue_request in Hr as (ic & af & Hb).
  unfold build_request_body in Hb.
  destruct (r_model_id x) as [| | |m| |]; try discriminate Hb.
  exists m. split; [reflexivity|]. cbn [as_str bind] in Hb.
  rewrite Hw, get_model_type_refines in Hb.
  exact (request_holds_prompt _ _ _ _ _ _ Hb).
Qed.

(** The world [w] with the builders of the source. *)
Definition with_builders (c : Coercions) (w : World) : World :=
  {| get_prompt := get_prompt w;
     list_prompt_versions_call := list_prompt_versions_call w;
     build_request := request_builder c;
     invoke_model := invoke_model w;
     invoke_model_with_response_stream := invoke_model_with_response_stream w;
     json_loads := json_loads w;
     py_str := py_str w |}.

Lemma model_receives_the_filled_template_witness :
  exists m,
    JStr "anthropic.claude-3-sonnet-20240229-v1:0" = JStr m /\
    prompt_in (classify_spec m)
              (JObj [("anthropic_version", JStr "bedrock-2023-05-31");
                     ("max_tokens", JInt 2000);
                     ("temperature", JInt 1);
                     ("top_p", JInt 1);
                     ("messages",
                      JArr [JObj [("role", JStr "user");
                                  ("content", JStr "Answer: 2+2?")]])])
    = Ok (JStr "Answer: 2+2?").
Proof.
  exact (model_receives_the_filled_template
           example_coercions (with_builders example_coercions example_world)
           (JStr "PROMPT1") (str_values [("q", "2+2?")]) JNull
           {| r_model_id := JStr "anthropic.claude-3-sonnet-20240229-v1:0";
              r_filled_template := JStr "Answer: 2+2?";
              r_request_body :=
                JObj [("anthropic_version", JStr "bedrock-2023-05-31");
                      ("max_tokens", JInt 2000);
                      ("temperature", JInt 1);
                      ("top_p", JInt 1);
                      ("messages",
                       JArr [JObj [("role", JStr "user");
                                   ("content", JStr "Answer: 2+2?")]])] |}
           (fun _ _ _ _ => eq_refl) eq_refl).
Defined.

(* ================================================================= *)
(** ** Batch reports: the order of the entries *)









